(** * grunt-ts transformers: directive resolution and the rewrite loop

    A shallow embedding of [tasks/modules/transformers.ts]: the name
    resolver [getImports], the four directive transformers and the
    per-file rewrite loop of [transformFiles], followed by the properties
    of the design document that were checked against them. *)

From Stdlib Require Import List NArith Bool Ascii String Lia Permutation Sorted.
Import ListNotations.

(* ================================================================== *)
(** * JavaScript strings *)
(* ================================================================== *)

(** A JavaScript string is a sequence of UTF-16 code units. *)
Definition jstring := list N.

(** Literals of the source are written [js "..."]. *)
Definition js (s : string) : jstring := map N_of_ascii (list_ascii_of_string s).

Definition CR : N := 13.
Definition LF : N := 10.
Definition BOM : N := 65279.
(** The double quote, for the two templates that contain one. *)
Definition dquote : jstring := [34%N].

(** [a === b] on strings. *)
Fixpoint jeqb (a b : jstring) : bool :=
  match a, b with
  | [], [] => true
  | x :: a', y :: b' => N.eqb x y && jeqb a' b'
  | _, _ => false
  end.

(** [a < b] on strings: lexicographic on code units, the order of the
    default comparison of [Array.prototype.sort]. *)
Fixpoint jltb (a b : jstring) : bool :=
  match a, b with
  | [], [] => false
  | [], _ :: _ => true
  | _ :: _, [] => false
  | x :: a', y :: b' =>
      if N.ltb x y then true else if N.ltb y x then false else jltb a' b'
  end.

Definition isEmpty (s : jstring) : bool :=
  match s with [] => true | _ :: _ => false end.

(** Truthiness of a string value: every string but the empty one. *)
Definition truthy (s : jstring) : bool := negb (isEmpty s).

(** LineTerminator of the language: LF, CR, U+2028, U+2029. *)
Definition isLineTerminator (c : N) : bool :=
  N.eqb c 10 || N.eqb c 13 || N.eqb c 8232 || N.eqb c 8233.

(** The class [\s], also what [trim] removes: WhiteSpace and LineTerminator. *)
Definition isSpace (c : N) : bool :=
  N.eqb c 9 || N.eqb c 10 || N.eqb c 11 || N.eqb c 12 || N.eqb c 13
  || N.eqb c 32 || N.eqb c 160 || N.eqb c 5760
  || (N.leb 8192 c && N.leb c 8202)
  || N.eqb c 8232 || N.eqb c 8233 || N.eqb c 8239 || N.eqb c 8287
  || N.eqb c 12288 || N.eqb c 65279.

(** The two characters on which [transformFiles] splits a file. *)
Definition isBreak (c : N) : bool := N.eqb c CR || N.eqb c LF.

Fixpoint dropWhile (p : N -> bool) (s : jstring) : jstring :=
  match s with
  | [] => []
  | c :: r => if p c then dropWhile p r else s
  end.

Fixpoint takeWhile (p : N -> bool) (s : jstring) : jstring :=
  match s with
  | [] => []
  | c :: r => if p c then c :: takeWhile p r else []
  end.

(** [String.prototype.trim]. *)
Definition trim (s : jstring) : jstring :=
  rev (dropWhile isSpace (rev (dropWhile isSpace s))).

(** [String.prototype.toLowerCase] on the code units A-Z.  No other code
    unit lower-cases to one of the letters of ["index"], the only string
    the source compares a lower-cased value with. *)
Definition lowerUnit (c : N) : N :=
  if N.leb 65 c && N.leb c 90 then (c + 32)%N else c.

Definition toLowerCase (s : jstring) : jstring := map lowerUnit s.

Fixpoint startsWith (p s : jstring) : bool :=
  match p, s with
  | [], _ => true
  | x :: p', y :: s' => N.eqb x y && startsWith p' s'
  | _ :: _, [] => false
  end.

(** The rest of [s] after the literal prefix [p], when [s] starts with it. *)
Fixpoint stripPrefix (p s : jstring) : option jstring :=
  match p, s with
  | [], _ => Some s
  | x :: p', y :: s' => if N.eqb x y then stripPrefix p' s' else None
  | _ :: _, [] => None
  end.

(** [_str.endsWith(s, e)]. *)
Definition endsWith (s e : jstring) : bool := startsWith (rev e) (rev s).

(** [_str.contains(s, needle)], that is [s.indexOf(needle) !== -1]. *)
Fixpoint contains (s needle : jstring) : bool :=
  startsWith needle s
  || match s with
     | [] => false
     | _ :: r => contains r needle
     end.

(** [s.split(sep)] for a one-character separator. *)
Fixpoint splitOn (sep : N) (s : jstring) : list jstring :=
  match s with
  | [] => [[]]
  | c :: r =>
      if N.eqb c sep then [] :: splitOn sep r
      else match splitOn sep r with
           | p :: ps => (c :: p) :: ps
           | [] => [[c]]
           end
  end.

(** [contents.split(/\r\n|\r|\n/)]: at a CR the alternative [\r\n] is
    tried first. *)
Fixpoint splitLines (s : jstring) : list jstring :=
  match s with
  | [] => [[]]
  | c :: r =>
      if N.eqb c CR then
        match r with
        | d :: r' => if N.eqb d LF then [] :: splitLines r' else [] :: splitLines r
        | [] => [] :: splitLines r
        end
      else if N.eqb c LF then [] :: splitLines r
      else match splitLines r with
           | l :: ls => (c :: l) :: ls
           | [] => [[c]]
           end
  end.

(** [lines.join(sep)]. *)
Fixpoint joinLines (sep : jstring) (lines : list jstring) : jstring :=
  match lines with
  | [] => []
  | [l] => l
  | l :: rest => l ++ sep ++ joinLines sep rest
  end.

(** [p.replace(/(?:\.d)?\.ts$/, '')]: the leftmost match that reaches the
    end of the string is [.d.ts] when the string ends so, else [.ts]. *)
Definition stripTsSuffix (p : jstring) : jstring :=
  if endsWith p (js ".d.ts") then firstn (List.length p - 5) p
  else if endsWith p (js ".ts") then firstn (List.length p - 3) p
  else p.

(** [list.sort()] on strings: insertion into an ascending list. *)
Fixpoint insertSorted (x : jstring) (l : list jstring) : list jstring :=
  match l with
  | [] => [x]
  | y :: l' => if jltb y x then y :: insertSorted x l' else x :: l
  end.

Definition sortStrings (l : list jstring) : list jstring :=
  fold_right insertSorted [] l.

(** The [replace] that drops one leading U+FEFF from the text read from
    disk. *)
Definition stripLeadingBOM (raw : jstring) : jstring :=
  match raw with
  | c :: r => if N.eqb c BOM then r else raw
  | [] => raw
  end.

(* ================================================================== *)
(** * The host: operating system, file system and helper modules *)
(* ================================================================== *)

(** What the module takes from Node ([os], [path], [fs]) and from the
    sibling module [./utils], none of which is part of the file under
    study.  They are parameters of the development. *)
Record Host := {
  (** [os.EOL] *)
  EOL : jstring;
  (** [path.basename(p, ext)]; an empty [ext] is the call without one *)
  basename : jstring -> jstring -> jstring;
  (** [path.dirname(p)] *)
  dirname : jstring -> jstring;
  (** [path.extname(p)] *)
  extname : jstring -> jstring;
  (** [path.join(a, b)] *)
  join : jstring -> jstring -> jstring;
  (** [path.relative(from, to)] *)
  relative : jstring -> jstring -> jstring;
  (** [fs.existsSync(p)] *)
  existsSync : jstring -> bool;
  (** [fs.lstatSync(p).isDirectory()] *)
  isDirectory : jstring -> bool;
  (** [utils.getFiles(dirPath, exclude)] *)
  getFiles : jstring -> (jstring -> bool) -> list jstring;
  (** [utils.makeRelativePath(folderpath, filename, forceRelative)] *)
  makeRelativePath : jstring -> jstring -> bool -> jstring
}.

(** The module variables [currentTargetFiles] and [currentTargetDirs],
    set once at the start of [transformFiles]. *)
Record Targets := {
  currentTargetFiles : list jstring;
  currentTargetDirs : list jstring
}.

(* ================================================================== *)
(** * getImports *)
(* ================================================================== *)

Section Resolver.
Variable h : Host.

(** The predicate of the first [_.find]: base name, base name without
    [.d.ts], base name without [.ts]. *)
Definition fileNameMatches (name targetFile : jstring) : bool :=
  jeqb (basename h targetFile []) name
  || jeqb (basename h targetFile (js ".d.ts")) name
  || jeqb (basename h targetFile (js ".ts")) name.

(** The predicate of the second [_.find]. *)
Definition dirNameMatches (name targetDir : jstring) : bool :=
  jeqb (basename h targetDir []) name.

(** The callback handed to [utils.getFiles]; [true] excludes the entry. *)
Definition excludeEntry (currentFilePath filename : jstring) : bool :=
  if isEmpty (relative h currentFilePath filename) then true
  else truthy (extname h filename)
       && (negb (endsWith filename (js ".ts")) || endsWith filename (js ".d.ts"))
       && negb (isDirectory h filename).

Definition getImports (currentFilePath name : jstring)
           (targetFiles targetDirs : list jstring) (getIndexIfDir : bool)
  : list jstring :=
  let files : list jstring := [] in
  (* Test if any filename matches *)
  let files :=
    match find (fileNameMatches name) targetFiles with
    | Some targetFile => if truthy targetFile then files ++ [targetFile] else files
    | None => files
    end in
  (* Test if dirname matches *)
  match find (dirNameMatches name) targetDirs with
  | Some targetDir =>
      if truthy targetDir then
        let possibleIndexFilePath := join h targetDir (js "index.ts") in
        if getIndexIfDir
           && existsSync h possibleIndexFilePath
           && negb (isEmpty (relative h currentFilePath possibleIndexFilePath))
        then files ++ [join h targetDir (js "index.ts")]
        else
          let filesInDir := getFiles h targetDir (excludeEntry currentFilePath) in
          let filesInDir := sortStrings filesInDir in
          files ++ filesInDir
      else files
  | None => files
  end.
End Resolver.

(* ================================================================== *)
(** * The transformers *)
(* ================================================================== *)

(** The four classes instantiated by [transformFiles], in the order of
    its [transformers] array. *)
Inductive Kind := Import | Export | Reference | Unknown.

Definition transformers : list Kind := [Import; Export; Reference; Unknown].

(** The [key] field after construction. *)
Definition key (k : Kind) : jstring :=
  match k with
  | Import => js "import"
  | Export => js "export"
  | Reference => js "ref"
  | Unknown => js "unknown"
  end.

(** The second constructor argument of [BaseTransformer]. *)
Definition variableSyntax (k : Kind) : jstring :=
  match k with
  | Import | Export => js "<fileOrDirectoryName>[,<variableName>]"
  | Reference => js "<fileOrDirectoryName>"
  | Unknown => []
  end.

(** [signatureGenerated]: ['///ts:' + key + ':generated']; the unknown
    transformer overwrites the field with the same shape. *)
Definition signatureGenerated (k : Kind) : jstring :=
  js "///ts:" ++ key k ++ js ":generated".

Definition syntaxError (k : Kind) : jstring :=
  match k with
  | Unknown => js "/// Unknown transform " ++ signatureGenerated Unknown
  | _ => js "/// Invalid syntax for ts:" ++ key k ++ js "=" ++ variableSyntax k
         ++ js " " ++ signatureGenerated k
  end.

Definition getIndexIfDir (k : Kind) : bool :=
  match k with Import => true | _ => false end.

Definition removeExtensionFromFilePath (k : Kind) : bool :=
  match k with Import | Export => true | _ => false end.

Definition isGenerated (k : Kind) (line : jstring) : bool :=
  contains line (signatureGenerated k).

(** The common head [^///\s*ts:] of the four patterns: the text after it.
    [\s*] is greedy and [t] is no white space, so it takes the whole run. *)
Definition afterSignature (line : jstring) : option jstring :=
  match stripPrefix (js "///") line with
  | Some r => stripPrefix (js "ts:") (dropWhile isSpace r)
  | None => None
  end.

(** A greedy capture of any characters (dot, star): the dot stops at a
    line terminator. *)
Definition dotStar (s : jstring) : jstring :=
  takeWhile (fun c => negb (isLineTerminator c)) s.

(** [line.match(this.match)]: the captures [match[1]] and [match[2]], or
    [None] for [null].  The pattern is the common head, the key, an
    optional [=] (first capture) and the greedy rest (second capture); for
    the unknown transformer the key is itself a greedy capture of any
    characters, so that [match[1]] is the greedy
    rest of the line and [match[2]], the [(=?)] after it, is empty. *)
Definition matches (k : Kind) (line : jstring) : option (jstring * jstring) :=
  match afterSignature line with
  | None => None
  | Some r =>
      match k with
      | Unknown => Some (dotStar r, [])
      | _ =>
          match stripPrefix (key k) r with
          | None => None
          | Some r' =>
              match r' with
              | c :: r'' =>
                  if N.eqb c 61 then Some (js "=", dotStar r'')
                  else Some ([], dotStar r')
              | [] => Some ([], [])
              end
          end
      end
  end.

(** [BaseTransformer.containsTransformSignature]: the pattern
    [///\s*ts:] searched at every position. *)
Fixpoint containsTransformSignature (s : jstring) : bool :=
  match afterSignature s with
  | Some _ => true
  | None => match s with
            | [] => false
            | _ :: r => containsTransformSignature r
            end
  end.

(** [match[1] && match[2] && match[2].trim()] *)
Definition templateVarsOf (m : jstring * jstring) : jstring :=
  if truthy (fst m) then
    if truthy (snd m) then trim (snd m) else snd m
  else fst m.

Section Transform.
Variable h : Host.
Variable tg : Targets.

(** The three [_.template] texts, applied to [filename], [pathToFile]
    and the transformer's own [signatureGenerated]. *)
Definition template (k : Kind) (filename pathToFile : jstring) : jstring :=
  match k with
  | Import =>
      js "import " ++ filename ++ js " = require('" ++ pathToFile ++ js "');"
  | Export =>
      js "import " ++ filename ++ js "_file = require('" ++ pathToFile ++ js "'); "
      ++ signatureGenerated Export ++ EOL h
      ++ js "export var " ++ filename ++ js " = " ++ filename ++ js "_file;"
  | Reference =>
      js "/// <reference path=" ++ dquote ++ pathToFile ++ dquote ++ js "/>"
  | Unknown => []
  end.

(** [path.basename(path.basename(p, '.ts'), '.d')] *)
Definition strippedBaseName (completePathToFile : jstring) : jstring :=
  basename h (basename h completePathToFile (js ".ts")) (js ".d").

(** The variable [filename] of the loop body; [None] is the [null] of a
    directive with one parameter only. *)
Definition aliasOf (requestedVariableName : option jstring)
           (completePathToFile : jstring) : jstring :=
  let filename :=
    match requestedVariableName with
    | Some v => if truthy v then v else strippedBaseName completePathToFile
    | None => strippedBaseName completePathToFile
    end in
  if jeqb (toLowerCase filename) (js "index")
  then basename h (dirname h completePathToFile) []
  else filename.

Definition pathToFileOf (k : Kind) (sourceFileDirectory completePathToFile : jstring)
  : jstring :=
  makeRelativePath h sourceFileDirectory
    (if removeExtensionFromFilePath k then stripTsSuffix completePathToFile
     else completePathToFile) true.

(** One pushed element of [result]. *)
Definition statementFor (k : Kind) (sourceFile : jstring)
           (requestedVariableName : option jstring) (completePathToFile : jstring)
  : jstring :=
  template k (aliasOf requestedVariableName completePathToFile)
           (pathToFileOf k (dirname h sourceFile) completePathToFile)
  ++ js " " ++ signatureGenerated k.

Definition noMatchLine (k : Kind) (requestedFileName : jstring) : jstring :=
  js "/// No file or directory matched name " ++ dquote ++ requestedFileName
  ++ dquote ++ js " " ++ signatureGenerated k.

(** [transform(sourceFile, templateVars)] of the four classes. *)
Definition transform (k : Kind) (sourceFile templateVars : jstring) : list jstring :=
  match k with
  | Unknown => [syntaxError Unknown]
  | _ =>
      if truthy templateVars then
        let vars := splitOn 44 templateVars in
        let requestedFileName := trim (hd [] vars) in
        let requestedVariableName :=
          match vars with
          | _ :: v :: _ => Some (trim v)
          | _ => None
          end in
        let imports :=
          getImports h sourceFile requestedFileName
                     (currentTargetFiles tg) (currentTargetDirs tg)
                     (getIndexIfDir k) in
        match imports with
        | _ :: _ => map (statementFor k sourceFile requestedVariableName) imports
        | [] => [noMatchLine k requestedFileName]
        end
      else [syntaxError k]
  end.

(* ---------------------------------------------------------------- *)
(** ** The rewrite loop of transformFiles *)

(** The second [_.some]: the callback pushes onto [outputLines] for the
    first transformer that matches and stops the iteration there. *)
Fixpoint someMatches (ts : list Kind) (fileToProcess line : jstring)
         (outputLines : list jstring) : bool * list jstring :=
  match ts with
  | [] => (false, outputLines)
  | t :: ts' =>
      match matches t line with
      | Some m =>
          (true, (outputLines ++ [line])
                   ++ transform t fileToProcess (templateVarsOf m))
      | None => someMatches ts' fileToProcess line outputLines
      end
  end.

(** The [for] loop over [lines], [outputLines] being its accumulator. *)
Fixpoint loopLines (fileToProcess : jstring) (lines outputLines : list jstring)
  : list jstring :=
  match lines with
  | [] => outputLines
  | line :: rest =>
      if existsb (fun t => isGenerated t line) transformers
      then loopLines fileToProcess rest outputLines
      else
        match someMatches transformers fileToProcess line outputLines with
        | (true, out) => loopLines fileToProcess rest out
        | (false, out) => loopLines fileToProcess rest (out ++ [line])
        end
  end.

(** [transformedContent] for the [contents] of a file that passed the
    signature test: split, loop, join. *)
Definition transformContent (fileToProcess contents : jstring) : jstring :=
  joinLines (EOL h) (loopLines fileToProcess (splitLines contents) []).

(** The body of the [_.forEach] from the signature test on: [Some c]
    when [grunt.file.write(fileToProcess, c)] is called, [None] when the
    file is left alone. *)
Definition processContents (fileToProcess contents : jstring) : option jstring :=
  if negb (containsTransformSignature contents) then None
  else
    let transformedContent := transformContent fileToProcess contents in
    if negb (jeqb transformedContent contents) then Some transformedContent
    else None.

(** The same from the text read from disk. *)
Definition processFile (fileToProcess raw : jstring) : option jstring :=
  processContents fileToProcess (stripLeadingBOM raw).
End Transform.

(* ================================================================== *)
(** * The two contributions to a resolution result *)
(* ================================================================== *)

Section Contributions.
Variable h : Host.

(** What the file-name scan appends: the entry found, if any. *)
Definition fileMatch (name : jstring) (targetFiles : list jstring) : list jstring :=
  match find (fileNameMatches h name) targetFiles with
  | Some targetFile => if truthy targetFile then [targetFile] else []
  | None => []
  end.

(** What the directory match appends: the index file, or the sorted
    listing of the directory found. *)
Definition dirMatch (currentFilePath name : jstring) (targetDirs : list jstring)
           (getIndexIfDir : bool) : list jstring :=
  match find (dirNameMatches h name) targetDirs with
  | Some targetDir =>
      if truthy targetDir then
        if getIndexIfDir
           && existsSync h (join h targetDir (js "index.ts"))
           && negb (isEmpty (relative h currentFilePath
                                      (join h targetDir (js "index.ts"))))
        then [join h targetDir (js "index.ts")]
        else sortStrings (getFiles h targetDir (excludeEntry h currentFilePath))
      else []
  | None => []
  end.
End Contributions.

(* ================================================================== *)
(** * The rewrite as the design document words it *)
(* ================================================================== *)

Section Described.
Variable h : Host.
Variable tg : Targets.

(** The first kind, in priority order, whose pattern matches the line:
    the kind that claims it, with its captures. *)
Definition claimedBy (line : jstring) : option (Kind * (jstring * jstring)) :=
  match matches Import line, matches Export line, matches Reference line,
        matches Unknown line with
  | Some m, _, _, _ => Some (Import, m)
  | None, Some m, _, _ => Some (Export, m)
  | None, None, Some m, _ => Some (Reference, m)
  | None, None, None, Some m => Some (Unknown, m)
  | None, None, None, None => None
  end.

Definition hasGeneratedMarker (line : jstring) : bool :=
  isGenerated Import line || isGenerated Export line
  || isGenerated Reference line || isGenerated Unknown line.

(** Step 3 of the rewrite loop for one line: a line with a generated
    marker is dropped; a directive line is kept and followed by the
    fresh output of the kind that claims it; any other line is kept. *)
Definition rewriteLine (fileToProcess line : jstring) : list jstring :=
  if hasGeneratedMarker line then []
  else match claimedBy line with
       | Some (k, m) => line :: transform h tg k fileToProcess (templateVarsOf m)
       | None => [line]
       end.
End Described.

(** The keyword of a directive line of the grammar
    [///ts:<kind>[=<param1>[,<param2>]]]: the text between [ts:] and the
    first [=], or the end of the line. *)
Definition keywordOf (line : jstring) : option jstring :=
  match afterSignature line with
  | Some r => Some (takeWhile (fun c => negb (N.eqb c 61)) r)
  | None => None
  end.

Definition recognizedKeyword (w : jstring) : bool :=
  jeqb w (js "import") || jeqb w (js "export") || jeqb w (js "ref").

(* ================================================================== *)
(** * Paths without line breaks *)
(* ================================================================== *)

(** A string without CR and LF: one physical line of a file. *)
Definition oneLine (s : jstring) : bool := forallb (fun c => negb (isBreak c)) s.

(** The host's path functions build their result from their arguments,
    the listing of a directory holds no name with a line break, and
    neither does the target set nor the path of the file processed. *)
Record LineSafe (h : Host) (tg : Targets) (fileToProcess : jstring) : Prop := {
  safe_basename : forall p e, oneLine p = true -> oneLine (basename h p e) = true;
  safe_dirname : forall p, oneLine p = true -> oneLine (dirname h p) = true;
  safe_join : forall a b,
      oneLine a = true -> oneLine b = true -> oneLine (join h a b) = true;
  safe_relative : forall d p,
      oneLine d = true -> oneLine p = true ->
      oneLine (makeRelativePath h d p true) = true;
  safe_listing : forall d ex p,
      oneLine d = true -> In p (getFiles h d ex) -> oneLine p = true;
  safe_files : forall p, In p (currentTargetFiles tg) -> oneLine p = true;
  safe_dirs : forall p, In p (currentTargetDirs tg) -> oneLine p = true;
  safe_source : oneLine fileToProcess = true
}.

(* ================================================================== *)
(** * A POSIX host over a listed tree, for the examples *)
(* ================================================================== *)

Module Posix.

(** The non-empty components of a path. *)
Definition components (p : jstring) : list jstring :=
  filter truthy (splitOn 47 p).

Definition isAbsolute (p : jstring) : bool := startsWith [47%N] p.

(** [path.basename]: the last component, without [ext] when it ends so. *)
Definition basename (p ext : jstring) : jstring :=
  let f := last (components p) [] in
  if truthy ext && endsWith f ext
  then firstn (List.length f - List.length ext) f
  else f.

(** [path.dirname]: all but the last component; [.] when nothing is
    left of a relative path. *)
Definition dirname (p : jstring) : jstring :=
  match removelast (components p) with
  | [] => if isAbsolute p then js "/" else js "."
  | d => (if isAbsolute p then js "/" else []) ++ joinLines (js "/") d
  end.

(** [path.extname]: from the last dot of the base name, unless that dot
    is its first character or there is none. *)
Definition extname (p : jstring) : jstring :=
  let f := basename p [] in
  match rev (splitOn 46 f) with
  | e :: (_ :: _) as before =>
      if isEmpty (joinLines [46%N] (rev before)) then [] else 46%N :: e
  | _ => []
  end.

(** Normalisation of a component list: [.] goes, [..] takes the
    component before it away. *)
Fixpoint normalize (done todo : list jstring) : list jstring :=
  match todo with
  | [] => rev done
  | c :: todo' =>
      if jeqb c (js ".") then normalize done todo'
      else if jeqb c (js "..") then
             match done with
             | d :: done' =>
                 if jeqb d (js "..") then normalize (c :: done) todo'
                 else normalize done' todo'
             | [] => normalize [c] todo'
             end
      else normalize (c :: done) todo'
  end.

Definition normalized (p : jstring) : list jstring := normalize [] (components p).

(** [path.join(a, b)] *)
Definition join (a b : jstring) : jstring :=
  match normalized (a ++ js "/" ++ b) with
  | [] => if isAbsolute a then js "/" else js "."
  | cs => (if isAbsolute a then js "/" else []) ++ joinLines (js "/") cs
  end.

Fixpoint dropCommon (a b : list jstring) : list jstring * list jstring :=
  match a, b with
  | x :: a', y :: b' => if jeqb x y then dropCommon a' b' else (a, b)
  | _, _ => (a, b)
  end.

(** [path.relative(from, to)] for two paths under the same working
    directory. *)
Definition relative (from to : jstring) : jstring :=
  let (up, down) := dropCommon (normalized from) (normalized to) in
  joinLines (js "/") (map (fun _ => js "..") up ++ down).

(** Stand-in for [utils.makeRelativePath]: the relative path with
    forward slashes, prefixed by [./] on request unless it starts with
    a dot. *)
Definition makeRelativePath (folderpath filename : jstring) (forceRelative : bool)
  : jstring :=
  let relativePath := relative folderpath filename in
  if forceRelative && negb (startsWith [46%N] relativePath)
  then js "./" ++ relativePath
  else relativePath.

(** A tree is the list of its paths, each with its directory flag. *)
Definition Tree := list (jstring * bool).

Definition existsSync (t : Tree) (p : jstring) : bool :=
  existsb (fun e => jeqb (fst e) p) t.

Definition isDirectory (t : Tree) (p : jstring) : bool :=
  existsb (fun e => jeqb (fst e) p && snd e) t.

(** Stand-in for [utils.getFiles]: the regular files directly inside
    [dirPath] that the callback does not exclude, in listing order. *)
Definition getFiles (t : Tree) (dirPath : jstring) (exclude : jstring -> bool)
  : list jstring :=
  filter (fun p => negb (exclude p))
         (map fst (filter (fun e => negb (snd e) && jeqb (dirname (fst e)) dirPath) t)).

Definition host (eol : jstring) (t : Tree) : Host :=
  Build_Host eol basename dirname extname join relative
             (existsSync t) (isDirectory t) (getFiles t) makeRelativePath.
End Posix.

(* ================================================================== *)
(** * Sample projects *)
(* ================================================================== *)

Module Sample.

(** A project with one directory: two plain modules, an index, a file
    without extension, a declaration file and a script. *)
Definition tree : Posix.Tree :=
  [ (js "main.ts", false); (js "lib", true);
    (js "lib/b.ts", false); (js "lib/a.ts", false);
    (js "lib/index.ts", false); (js "lib/README", false);
    (js "lib/types.d.ts", false); (js "lib/util.js", false) ].

Definition host : Host := Posix.host [LF] tree.

Definition targets : Targets :=
  Build_Targets [js "main.ts"; js "lib/b.ts"; js "lib/a.ts"; js "lib/index.ts"]
                [js "lib"].

(** A project in which one file name holds a line feed. *)
Definition oddName : jstring := js "odd/a" ++ [LF] ++ js "b.ts".

Definition oddTree : Posix.Tree :=
  [ (js "main.ts", false); (js "odd", true); (oddName, false) ].

Definition oddHost : Host := Posix.host [LF] oddTree.

Definition oddTargets : Targets :=
  Build_Targets [js "main.ts"; oddName] [js "odd"].

(** A project whose index file is spelled with a capital. *)
Definition capitalTargets : Targets :=
  Build_Targets [js "main.ts"; js "lib/Index.ts"] [js "lib"].

End Sample.

(** The order in which [sortStrings] leaves two neighbours. *)
Definition jle (a b : jstring) : Prop := jltb b a = false.

(* ================================================================== *)
(** * Physical lines of the output *)
(* ================================================================== *)

(** A physical line that the next run drops: no line break inside, and
    some kind's generated marker. *)
Definition generatedLine (q : jstring) : Prop :=
  oneLine q = true /\ hasGeneratedMarker q = true.

(** An emitted element made of such lines, joined by the host's line end. *)
Definition generatedBlock (eol e : jstring) : Prop :=
  exists ps, ps <> [] /\ e = joinLines eol ps /\ Forall generatedLine ps.

(** An element of the output made of physical lines joined by the
    host's line end. *)
Definition lineBlock (eol e : jstring) : Prop :=
  exists ps, ps <> [] /\ e = joinLines eol ps
             /\ Forall (fun q => oneLine q = true) ps.

(** Every string of a list is one physical line. *)
Definition allOneLine (l : list jstring) : Prop :=
  forall x, In x l -> oneLine x = true.

(** A file with CRLF line ends and a stale generated line. *)
Definition staleContents : jstring :=
  js "///ts:export=lib" ++ [CR; LF]
  ++ js "import old_file = require('./old'); ///ts:export:generated" ++ [CR; LF]
  ++ js "///ts:import=lib" ++ [CR; LF]
  ++ js "var x = 1;".

(* ================================================================== *)
(** * getTargetFolders *)
(* ================================================================== *)

(** The property names that the object literal [{}] inherits from
    [Object.prototype]; the operator [in] sees them. *)
Definition inheritedNames : list jstring :=
  [ js "constructor"; js "hasOwnProperty"; js "isPrototypeOf";
    js "propertyIsEnumerable"; js "toLocaleString"; js "toString";
    js "valueOf"; js "__defineGetter__"; js "__defineSetter__";
    js "__lookupGetter__"; js "__lookupSetter__"; js "__proto__" ].

(** [dir in folders], the object [folders] being the list of its own
    keys in the order of their creation. *)
Definition inFolders (dir : jstring) (folders : list jstring) : bool :=
  existsb (jeqb dir) folders || existsb (jeqb dir) inheritedNames.

Definition isDigit (c : N) : bool := N.leb 48 c && N.leb c 57.

Definition decimalValue (s : jstring) : N :=
  fold_left (fun acc c => (acc * 10 + (c - 48))%N) s 0%N.

(** An array index: the canonical decimal form of an integer below
    2^32 - 1. *)
Definition isArrayIndex (s : jstring) : bool :=
  match s with
  | [] => false
  | c :: r =>
      forallb isDigit s
      && (negb (N.eqb c 48) || isEmpty r)
      && N.ltb (decimalValue s) 4294967295
  end.

Fixpoint insertIndex (x : jstring) (l : list jstring) : list jstring :=
  match l with
  | [] => [x]
  | y :: l' =>
      if N.ltb (decimalValue y) (decimalValue x) then y :: insertIndex x l'
      else x :: l
  end.

(** [Object.keys(folders)]: the array indices in ascending numeric
    order, then the other keys in the order of their creation. *)
Definition objectKeys (own : list jstring) : list jstring :=
  fold_right insertIndex [] (filter isArrayIndex own)
  ++ filter (fun k => negb (isArrayIndex k)) own.

Section TargetFolders.
Variable h : Host.

(** The [while] loop: [None] when the fuel runs out before the loop
    condition fails. *)
Fixpoint walkUp (fuel : nat) (dir : jstring) (folders : list jstring)
  : option (list jstring) :=
  if negb (jeqb dir (js ".")) && negb (inFolders dir folders) then
    match fuel with
    | O => None
    | S fuel' => walkUp fuel' (dirname h dir) (folders ++ [dir])
    end
  else Some folders.

(** The [_.forEach] over the target files. *)
Fixpoint eachTargetFile (fuel : nat) (targetFiles folders : list jstring)
  : option (list jstring) :=
  match targetFiles with
  | [] => Some folders
  | targetFile :: rest =>
      match walkUp fuel (dirname h targetFile) folders with
      | Some folders' => eachTargetFile fuel rest folders'
      | None => None
      end
  end.

Definition getTargetFolders (fuel : nat) (targetFiles : list jstring)
  : option (list jstring) :=
  match eachTargetFile fuel targetFiles [] with
  | Some folders => Some (objectKeys folders)
  | None => None
  end.
End TargetFolders.

(** [path.dirname] leads upwards: a path other than [.] has the parent
    [.], is its own parent (a root), or has a shorter parent. *)
Definition Ascends (h : Host) : Prop :=
  forall p, p <> js "." ->
            dirname h p = js "." \/ dirname h p = p
            \/ List.length (dirname h p) < List.length p.

(** The ancestors of a path: its parent, the parent of that, ... *)
Fixpoint ancestor (h : Host) (n : nat) (p : jstring) : jstring :=
  match n with
  | O => dirname h p
  | S n' => dirname h (ancestor h n' p)
  end.

(** The total length of the strings of a list. *)
Definition totalLength (l : list jstring) : nat :=
  fold_right (fun s n => List.length s + n) 0 l.

(* ================================================================== *)
(** * transformFiles *)
(* ================================================================== *)

(** The state of a run: the disk, the calls of [grunt.file.write] made so
    far, and the file at which a read or a write threw, if one did. *)
Record Run (Disk : Type) := {
  disk : Disk;
  written : list (jstring * jstring);
  thrownAt : option jstring
}.
Arguments disk {Disk} _.
Arguments written {Disk} _.
Arguments thrownAt {Disk} _.

Section TransformFiles.
Variable h : Host.
(** The contents of the files.  The writes of a run change contents
    only, which [fs.existsSync] and the directory listings of the host do
    not look at. *)
Variable Disk : Type.
(** [fs.readFileSync(p).toString()]; [None] when the call throws. *)
Variable readFileSync : Disk -> jstring -> option jstring.
(** [grunt.file.write(p, c)]; [None] when the call throws. *)
Variable write : Disk -> jstring -> jstring -> option Disk.

(** The [_.forEach] over the changed files.  Nothing catches an
    exception, so the first one ends the run. *)
Fixpoint forEachChanged (tg : Targets) (changedFiles : list jstring)
         (d : Disk) (log : list (jstring * jstring)) : Run Disk :=
  match changedFiles with
  | [] => {| disk := d; written := log; thrownAt := None |}
  | fileToProcess :: rest =>
      match readFileSync d fileToProcess with
      | None => {| disk := d; written := log; thrownAt := Some fileToProcess |}
      | Some raw =>
          match processFile h tg fileToProcess raw with
          | None => forEachChanged tg rest d log
          | Some transformedContent =>
              match write d fileToProcess transformedContent with
              | Some d' =>
                  forEachChanged tg rest d'
                                 (log ++ [(fileToProcess, transformedContent)])
              | None =>
                  {| disk := d; written := log; thrownAt := Some fileToProcess |}
              end
          end
      end
  end.

(** [transformFiles(changedFiles, targetFiles, target, task)]; the last
    two arguments are not used.  [None] when the fuel of the folder walk
    runs out. *)
Definition transformFiles (fuel : nat) (changedFiles targetFiles : list jstring)
           (d : Disk) : option (Run Disk) :=
  match getTargetFolders h fuel targetFiles with
  | Some dirs =>
      Some (forEachChanged (Build_Targets targetFiles dirs) changedFiles d [])
  | None => None
  end.
End TransformFiles.

(** A disk in memory: the latest entry for a path holds its contents. *)
Module MemDisk.
Definition Disk := list (jstring * jstring).

Definition readFileSync (d : Disk) (p : jstring) : option jstring :=
  match find (fun e => jeqb (fst e) p) d with
  | Some e => Some (snd e)
  | None => None
  end.

Definition write (d : Disk) (p c : jstring) : option Disk := Some ((p, c) :: d).
End MemDisk.

(** What a run needs from the disk to read back what it wrote. *)
Record DiskLaws (Disk : Type) (readFileSync : Disk -> jstring -> option jstring)
       (write : Disk -> jstring -> jstring -> option Disk) : Prop := {
  read_written : forall d d' p c,
      write d p c = Some d' -> readFileSync d' p = Some c;
  read_other : forall d d' p c q,
      write d p c = Some d' -> q <> p -> readFileSync d' q = readFileSync d q
}.

Module SampleRun.
(** The disk of the sample project: one changed file with a stale
    generated line, one without any directive. *)
Definition disk0 : MemDisk.Disk :=
  [ (js "main.ts", staleContents);
    (js "lib/a.ts", js "export var a = 1;") ].

Definition changed : list jstring := [js "main.ts"; js "lib/a.ts"].
End SampleRun.

(* ================================================================== *)
(** * The HTML to TypeScript module (src/unnamed/part_000) *)
(* ================================================================== *)

Module Html2ts.

(** [content.replace(quoteRegexp, '\\' + quoteChar)] for the default
    [quoteChar], the single quote, with which alone [escapeContent] is
    called: every ['] becomes [\']. *)
Fixpoint escapeQuotes (content : jstring) : jstring :=
  match content with
  | [] => []
  | c :: r =>
      if N.eqb c 39 then 92%N :: 39%N :: escapeQuotes r
      else c :: escapeQuotes r
  end.

(** The second [replace] of [escapeContent]: every LF goes, with the CR
    before it if there is one ([nlReplace] is the empty string). *)
Fixpoint removeNewlines (s : jstring) : jstring :=
  match s with
  | [] => []
  | c :: r =>
      if N.eqb c CR then
        match r with
        | d :: r' => if N.eqb d LF then removeNewlines r' else c :: removeNewlines r
        | [] => [c]
        end
      else if N.eqb c LF then removeNewlines r
      else c :: removeNewlines r
  end.

Definition escapeContent (content : jstring) : jstring :=
  removeNewlines (escapeQuotes content).

(** [0xFEFF === str.charCodeAt(0) ? str.substring(1) : str] *)
Definition stripBOM (str : jstring) : jstring :=
  match str with
  | c :: r => if N.eqb 65279 c then r else str
  | [] => str
  end.

(** [s.replace('.', by)]: the first dot only. *)
Fixpoint replaceFirstDot (by_ s : jstring) : jstring :=
  match s with
  | [] => []
  | c :: r => if N.eqb c 46 then by_ ++ r else c :: replaceFirstDot by_ r
  end.

(** [htmlTemplate] *)
Definition htmlTemplate (modulename varname content : jstring) : jstring :=
  js "module " ++ modulename ++ js " { export var " ++ varname ++ js " =  '"
  ++ content ++ js "' } ".

(** [IHtml2TSOptions]: the two functions get [ext] and [filename]. *)
Record IHtml2TSOptions := {
  moduleFunction : jstring -> jstring -> jstring;
  varFunction : jstring -> jstring -> jstring
}.

(** The text that [compileHTML] writes for a file read as [raw]. *)
Definition fileContentOf (h : Host) (raw filename : jstring)
           (options : IHtml2TSOptions) : jstring :=
  let htmlContent := escapeContent raw in
  let htmlContent := stripBOM htmlContent in
  let ext := replaceFirstDot [] (extname h filename) in
  let extFreename := basename h filename (js "." ++ ext) in
  let moduleName := moduleFunction options ext extFreename in
  let varName := replaceFirstDot (js "_") (varFunction options ext extFreename) in
  htmlTemplate moduleName varName htmlContent.

Section Compile.
Variable h : Host.
Variable Disk : Type.
Variable readFileSync : Disk -> jstring -> option jstring.
(** [fs.writeFileSync(p, c)]; [None] when the call throws. *)
Variable writeFileSync : Disk -> jstring -> jstring -> option Disk.

(** [compileHTML(filename, options)]: the name of the file written, with
    the disk after the write; [None] when reading or writing throws. *)
Definition compileHTML (filename : jstring) (options : IHtml2TSOptions) (d : Disk)
  : option (jstring * Disk) :=
  match readFileSync d filename with
  | None => None
  | Some raw =>
      let fileContent := fileContentOf h raw filename options in
      let outputfile := filename ++ js ".ts" in
      match writeFileSync d outputfile fileContent with
      | Some d' => Some (outputfile, d')
      | None => None
      end
  end.
End Compile.

(** Every single quote of [s] comes right after a backslash;
    [afterBackslash] tells whether the character before [s] is one. *)
Fixpoint quotesEscaped (afterBackslash : bool) (s : jstring) : bool :=
  match s with
  | [] => true
  | c :: r =>
      (if N.eqb c 39 then afterBackslash else true) && quotesEscaped (N.eqb c 92) r
  end.

End Html2ts.

(** A project with two directories of the same name, each with an index
    file. *)
Module TwoLibs.
Definition tree : Posix.Tree :=
  [ (js "main.ts", false);
    (js "a", true); (js "a/lib", true);
    (js "a/lib/index.ts", false); (js "a/lib/x.ts", false);
    (js "b", true); (js "b/lib", true);
    (js "b/lib/index.ts", false); (js "b/lib/y.ts", false) ].

Definition host : Host := Posix.host [LF] tree.

Definition targetFiles : list jstring :=
  [ js "main.ts"; js "a/lib/index.ts"; js "a/lib/x.ts";
    js "b/lib/index.ts"; js "b/lib/y.ts" ].

(** The folders in the order in which [getTargetFolders] lists them. *)
Definition targets : Targets :=
  Build_Targets targetFiles [js "a/lib"; js "a"; js "b/lib"; js "b"].
End TwoLibs.

(* ================================================================== *)
(** * Strings: basic facts *)
(* ================================================================== *)

Lemma jeqb_refl (a : jstring) : jeqb a a = true.
Proof.
  induction a as [|x a IH]; simpl; [reflexivity|].
  now rewrite N.eqb_refl.
Qed.

Lemma jeqb_eq (a b : jstring) : jeqb a b = true <-> a = b.
Proof.
  split.
  - revert b; induction a as [|x a IH]; intros [|y b]; simpl; intro E;
      try discriminate; [reflexivity|].
    apply andb_true_iff in E as [E1 E2].
    apply N.eqb_eq in E1. apply IH in E2. now subst.
  - intros ->. apply jeqb_refl.
Qed.

Lemma jeqb_neq (a b : jstring) : jeqb a b = false <-> a <> b.
Proof.
  split.
  - intros E ->. now rewrite jeqb_refl in E.
  - intro N. destruct (jeqb a b) eqn:E; [|reflexivity].
    apply jeqb_eq in E. contradiction.
Qed.

Lemma truthy_nonempty (s : jstring) : truthy s = true <-> s <> [].
Proof. unfold truthy; destruct s; simpl; split; congruence. Qed.

Lemma startsWith_app (p r : jstring) : startsWith p (p ++ r) = true.
Proof.
  induction p as [|x p IH]; simpl; [reflexivity|].
  now rewrite N.eqb_refl.
Qed.

Lemma contains_here (p r : jstring) : contains (p ++ r) p = true.
Proof.
  destruct (p ++ r) eqn:E; simpl; rewrite <- E, startsWith_app; reflexivity.
Qed.

Lemma contains_app (a p r : jstring) : contains (a ++ p ++ r) p = true.
Proof.
  induction a as [|x a IH]; simpl.
  - apply contains_here.
  - rewrite IH. apply orb_true_r.
Qed.

Lemma stripPrefix_app (p r : jstring) : stripPrefix p (p ++ r) = Some r.
Proof.
  induction p as [|x p IH]; simpl; [reflexivity|].
  now rewrite N.eqb_refl.
Qed.

Lemma stripPrefix_startsWith (p s : jstring) :
  startsWith p s = false -> stripPrefix p s = None.
Proof.
  revert s; induction p as [|x p IH]; intros [|y s]; simpl; try congruence.
  destruct (N.eqb x y); simpl; auto.
Qed.

Lemma stripPrefix_Some (p s r : jstring) :
  stripPrefix p s = Some r -> s = p ++ r.
Proof.
  revert s; induction p as [|x p IH]; intros [|y s]; simpl; try congruence.
  destruct (N.eqb_spec x y); [|discriminate].
  intro E. apply IH in E. now subst.
Qed.

Lemma dropWhile_spaces (ws r : jstring) (c : N) :
  forallb isSpace ws = true -> isSpace c = false ->
  dropWhile isSpace (ws ++ c :: r) = c :: r.
Proof.
  intros Hws Hc. induction ws as [|x ws IH]; simpl in *.
  - now rewrite Hc.
  - apply andb_true_iff in Hws as [Hx Hws]. rewrite Hx. auto.
Qed.

Lemma afterSignature_head (ws rest : jstring) :
  forallb isSpace ws = true ->
  afterSignature (js "///" ++ ws ++ js "ts:" ++ rest) = Some rest.
Proof.
  intro Hws. unfold afterSignature.
  rewrite stripPrefix_app.
  change (js "ts:" ++ rest) with (116%N :: (js "s:" ++ rest)).
  rewrite dropWhile_spaces by (auto; reflexivity).
  change (116%N :: (js "s:" ++ rest)) with (js "ts:" ++ rest).
  apply stripPrefix_app.
Qed.

(* ================================================================== *)
(** * The dispatch over the transformers *)
(* ================================================================== *)

Lemma existsb_transformers (line : jstring) :
  existsb (fun t => isGenerated t line) transformers = hasGeneratedMarker line.
Proof.
  unfold transformers, hasGeneratedMarker; simpl.
  now rewrite orb_false_r, !orb_assoc.
Qed.

Lemma someMatches_claimedBy (h : Host) (tg : Targets)
      (fileToProcess line : jstring) (out : list jstring) :
  someMatches h tg transformers fileToProcess line out =
  match claimedBy line with
  | Some (k, m) =>
      (true, out ++ line :: transform h tg k fileToProcess (templateVarsOf m))
  | None => (false, out)
  end.
Proof.
  unfold transformers, claimedBy; simpl.
  destruct (matches Import line); [now rewrite <- app_assoc|].
  destruct (matches Export line); [now rewrite <- app_assoc|].
  destruct (matches Reference line); [now rewrite <- app_assoc|].
  destruct (matches Unknown line); [now rewrite <- app_assoc|].
  reflexivity.
Qed.

Lemma loopLines_flat_map (h : Host) (tg : Targets) (fileToProcess : jstring)
      (lines out : list jstring) :
  loopLines h tg fileToProcess lines out =
  out ++ flat_map (rewriteLine h tg fileToProcess) lines.
Proof.
  revert out; induction lines as [|line rest IH]; intro out;
    cbn [loopLines flat_map].
  - now rewrite app_nil_r.
  - rewrite existsb_transformers. unfold rewriteLine.
    destruct (hasGeneratedMarker line); cbn [app]; [apply IH|].
    rewrite someMatches_claimedBy.
    destruct (claimedBy line) as [[k m]|]; rewrite IH.
    + now rewrite <- app_assoc.
    + now rewrite <- app_assoc.
Qed.

Lemma matches_key (k : Kind) (line : jstring) (m : jstring * jstring) :
  k <> Unknown -> matches k line = Some m ->
  exists r', afterSignature line = Some (key k ++ r').
Proof.
  intros Hk. unfold matches.
  destruct (afterSignature line) as [r|]; [|discriminate].
  destruct k; try congruence;
    (destruct (stripPrefix _ r) as [r'|] eqn:E; [|discriminate]);
    intros _; exists r'; f_equal; now apply stripPrefix_Some.
Qed.

(** Two recognized kinds never match the same line: their keys differ in
    the first character. *)
Lemma matches_recognized_exclusive (k k' : Kind) (line : jstring)
      (m m' : jstring * jstring) :
  k <> Unknown -> k' <> Unknown ->
  matches k line = Some m -> matches k' line = Some m' -> k = k'.
Proof.
  intros Hk Hk' Hm Hm'.
  destruct (matches_key _ _ _ Hk Hm) as [r1 E1].
  destruct (matches_key _ _ _ Hk' Hm') as [r2 E2].
  rewrite E1 in E2. injection E2 as E.
  destruct k, k'; try congruence; discriminate E.
Qed.

Lemma claimedBy_recognized (k : Kind) (line : jstring) (m : jstring * jstring) :
  k <> Unknown -> matches k line = Some m -> claimedBy line = Some (k, m).
Proof.
  intros Hk Hm. unfold claimedBy.
  destruct (matches Import line) as [mi|] eqn:Ei.
  { assert (k = Import)
      by (eapply matches_recognized_exclusive; eauto; discriminate).
    subst. congruence. }
  destruct (matches Export line) as [me|] eqn:Ee.
  { assert (k = Export)
      by (eapply matches_recognized_exclusive; eauto; discriminate).
    subst. congruence. }
  destruct (matches Reference line) as [mr|] eqn:Er.
  { assert (k = Reference)
      by (eapply matches_recognized_exclusive; eauto; discriminate).
    subst. congruence. }
  destruct k; congruence.
Qed.

Lemma transform_no_parameters (h : Host) (tg : Targets) (k : Kind)
      (sourceFile : jstring) :
  transform h tg k sourceFile [] = [syntaxError k].
Proof. destruct k; reflexivity. Qed.

(* ================================================================== *)
(** * The rewrite loop *)
(* ================================================================== *)


Lemma trim_spaces (s : jstring) : forallb isSpace s = true -> trim s = [].
Proof.
  intro H. unfold trim.
  assert (E : dropWhile isSpace s = []).
  { induction s as [|c s IH]; simpl in *; [reflexivity|].
    apply andb_true_iff in H as [Hc Hs]. rewrite Hc. auto. }
  now rewrite E.
Qed.

(** C8.  A line that matches a recognized kind with an empty first
    capture (no [=]) reaches [transform] with the empty string and gets
    that kind's fixed syntax-error line, whatever the host and the target
    sets are. *)
Theorem missing_equals_gives_syntax_error (h : Host) (tg : Targets) (k : Kind)
        (fileToProcess line rest : jstring) (out : list jstring) :
  k <> Unknown ->
  matches k line = Some ([], rest) ->
  templateVarsOf ([], rest) = []
  /\ someMatches h tg transformers fileToProcess line out
     = (true, out ++ [line; syntaxError k])
  /\ syntaxError k
     = js "/// Invalid syntax for ts:" ++ key k ++ js "=" ++ variableSyntax k
       ++ js " ///ts:" ++ key k ++ js ":generated".
Proof.
  intros Hk Hm. split; [reflexivity|]. split.
  - rewrite someMatches_claimedBy, (claimedBy_recognized _ _ _ Hk Hm).
    cbn [templateVarsOf fst truthy isEmpty negb].
    now rewrite transform_no_parameters.
  - destruct k; try congruence; reflexivity.
Qed.

Lemma missing_equals_gives_syntax_error_witness :
  someMatches (Posix.host [LF] []) (Build_Targets [] []) transformers
              (js "main.ts") (js "///ts:import") []
  = (true,
     [js "///ts:import";
      js "/// Invalid syntax for ts:import=<fileOrDirectoryName>[,<variableName>] ///ts:import:generated"]).
Proof.
  refine (proj1 (proj2 (missing_equals_gives_syntax_error
                          (Posix.host [LF] []) (Build_Targets [] []) Import
                          (js "main.ts") (js "///ts:import") [] [] _ _))).
  - discriminate.
  - reflexivity.
Defined.

(** C10.  A line that matches a recognized kind with [=] but nothing
    except white space after it reaches [transform] with the empty string
    too, and gets the same syntax-error line. *)
Theorem blank_parameters_give_syntax_error (h : Host) (tg : Targets) (k : Kind)
        (fileToProcess line rest : jstring) (out : list jstring) :
  k <> Unknown ->
  matches k line = Some (js "=", rest) ->
  forallb isSpace rest = true ->
  templateVarsOf (js "=", rest) = []
  /\ someMatches h tg transformers fileToProcess line out
     = (true, out ++ [line; syntaxError k]).
Proof.
  intros Hk Hm Hws.
  assert (E : templateVarsOf (js "=", rest) = []).
  { unfold templateVarsOf; cbn [fst snd].
    change (truthy (js "=")) with true; cbn iota.
    destruct rest as [|c rest]; [reflexivity|].
    change (truthy (c :: rest)) with true; cbn iota.
    now apply trim_spaces. }
  split; [exact E|].
  rewrite someMatches_claimedBy, (claimedBy_recognized _ _ _ Hk Hm), E.
  now rewrite transform_no_parameters.
Qed.

Lemma blank_parameters_give_syntax_error_witness :
  someMatches (Posix.host [LF] []) (Build_Targets [] []) transformers
              (js "main.ts") (js "///ts:export=  ") []
  = (true,
     [js "///ts:export=  ";
      js "/// Invalid syntax for ts:export=<fileOrDirectoryName>[,<variableName>] ///ts:export:generated"]).
Proof.
  refine (proj2 (blank_parameters_give_syntax_error
                   (Posix.host [LF] []) (Build_Targets [] []) Export
                   (js "main.ts") (js "///ts:export=  ") (js "  ") [] _ _ _)).
  - discriminate.
  - reflexivity.
  - reflexivity.
Defined.

(** C7, as amended.  A line that starts with [///], white space and
    [ts:], and whose text after that does not start with [import],
    [export] or [ref], is claimed by the unknown kind; the unknown
    transform returns one fixed line whatever its parameters are; and the
    dispatch hands any line to the first kind that matches it, and to no
    other. *)
Theorem unknown_claims_the_rest (h : Host) (tg : Targets)
        (fileToProcess ws rest : jstring) (out : list jstring) :
  forallb isSpace ws = true ->
  startsWith (js "import") rest = false ->
  startsWith (js "export") rest = false ->
  startsWith (js "ref") rest = false ->
  someMatches h tg transformers fileToProcess
              (js "///" ++ ws ++ js "ts:" ++ rest) out
  = (true, out ++ [js "///" ++ ws ++ js "ts:" ++ rest;
                   js "/// Unknown transform ///ts:unknown:generated"])
  /\ (forall sourceFile templateVars,
         transform h tg Unknown sourceFile templateVars
         = [js "/// Unknown transform ///ts:unknown:generated"])
  /\ (forall line o,
         someMatches h tg transformers fileToProcess line o
         = match claimedBy line with
           | Some (k, m) =>
               (true, o ++ line :: transform h tg k fileToProcess (templateVarsOf m))
           | None => (false, o)
           end).
Proof.
  intros Hws Hi He Hr. split; [|split].
  - rewrite someMatches_claimedBy. unfold claimedBy, matches.
    rewrite (afterSignature_head _ _ Hws).
    cbn [key].
    rewrite (stripPrefix_startsWith _ _ Hi), (stripPrefix_startsWith _ _ He),
      (stripPrefix_startsWith _ _ Hr).
    reflexivity.
  - reflexivity.
  - intros. apply someMatches_claimedBy.
Qed.

Lemma unknown_claims_the_rest_witness :
  someMatches (Posix.host [LF] []) (Build_Targets [] []) transformers
              (js "main.ts") (js "/// ts:include=core") []
  = (true, [js "/// ts:include=core";
            js "/// Unknown transform ///ts:unknown:generated"]).
Proof.
  refine (proj1 (unknown_claims_the_rest
                   (Posix.host [LF] []) (Build_Targets [] [])
                   (js "main.ts") (js " ") (js "include=core") [] _ _ _ _));
    reflexivity.
Defined.

(** C3, as amended.  A file is written exactly when its contents (after
    the leading byte-order mark is dropped) hold a directive signature and
    the joined transformed content differs from them; what is written is
    that transformed content.  So a transformation that is the identity
    writes nothing, and neither does a file without any signature. *)
Theorem write_iff_signature_and_change (h : Host) (tg : Targets)
        (fileToProcess raw : jstring) :
  (processFile h tg fileToProcess raw <> None
   <-> containsTransformSignature (stripLeadingBOM raw) = true
       /\ transformContent h tg fileToProcess (stripLeadingBOM raw)
          <> stripLeadingBOM raw)
  /\ (forall written,
         processFile h tg fileToProcess raw = Some written ->
         written = transformContent h tg fileToProcess (stripLeadingBOM raw))
  /\ (transformContent h tg fileToProcess (stripLeadingBOM raw) = stripLeadingBOM raw ->
      processFile h tg fileToProcess raw = None)
  /\ (containsTransformSignature (stripLeadingBOM raw) = false ->
      processFile h tg fileToProcess raw = None).
Proof.
  unfold processFile, processContents.
  set (contents := stripLeadingBOM raw).
  set (t := transformContent h tg fileToProcess contents).
  destruct (containsTransformSignature contents); cbn [negb].
  - destruct (jeqb t contents) eqn:E; cbn [negb].
    + apply jeqb_eq in E. repeat split; try congruence.
      intros [_ N]. contradiction.
    + apply jeqb_neq in E. repeat split; try congruence.
  - repeat split; try congruence. intros [X _]. discriminate X.
Qed.

(* ================================================================== *)
(** * The name resolver *)
(* ================================================================== *)

Lemma find_first {A : Type} (p : A -> bool) (l : list A) (x : A) :
  find p l = Some x <->
  exists pre post,
    l = pre ++ x :: post /\ p x = true /\ forall y, In y pre -> p y = false.
Proof.
  split.
  - induction l as [|a l IH]; simpl; [discriminate|].
    destruct (p a) eqn:E.
    + intros [= ->]. exists [], l. repeat split; auto. intros y [].
    + intro F. destruct (IH F) as (pre & post & -> & Hx & Hpre).
      exists (a :: pre), post. repeat split; auto.
      intros y [<-|Hy]; auto.
  - intros (pre & post & -> & Hx & Hpre).
    induction pre as [|a pre IH]; simpl.
    + now rewrite Hx.
    + rewrite (Hpre a (or_introl eq_refl)). apply IH.
      intros y Hy. apply Hpre. now right.
Qed.

Lemma getImports_parts (h : Host) (currentFilePath name : jstring)
      (targetFiles targetDirs : list jstring) (getIndex : bool) :
  getImports h currentFilePath name targetFiles targetDirs getIndex
  = fileMatch h name targetFiles
    ++ dirMatch h currentFilePath name targetDirs getIndex.
Proof.
  unfold getImports, fileMatch, dirMatch. cbn [app].
  destruct (find (dirNameMatches h name) targetDirs) as [d|];
    [destruct (truthy d); [destruct (_ && _ && _)|]|];
    destruct (find (fileNameMatches h name) targetFiles) as [f|];
    try destruct (truthy f); cbn [app]; now rewrite ?app_nil_r.
Qed.

Lemma fileNameMatches_iff (h : Host) (name targetFile : jstring) :
  fileNameMatches h name targetFile = true <->
  basename h targetFile [] = name
  \/ basename h targetFile (js ".d.ts") = name
  \/ basename h targetFile (js ".ts") = name.
Proof.
  unfold fileNameMatches.
  rewrite !orb_true_iff, !jeqb_eq. tauto.
Qed.

(** C9.  The file-name scan contributes at most one path, the first
    entry of the target files whose base name equals the requested name
    in full, without [.d.ts] or without [.ts]; the result of the resolver
    is that contribution followed by what the directory match adds. *)
Theorem file_match_then_directory_match (h : Host)
        (currentFilePath name : jstring) (targetFiles targetDirs : list jstring)
        (getIndex : bool) :
  getImports h currentFilePath name targetFiles targetDirs getIndex
  = fileMatch h name targetFiles
    ++ dirMatch h currentFilePath name targetDirs getIndex
  /\ List.length (fileMatch h name targetFiles) <= 1
  /\ (forall f, In f (fileMatch h name targetFiles) ->
        exists pre post,
          targetFiles = pre ++ f :: post
          /\ (basename h f [] = name
              \/ basename h f (js ".d.ts") = name
              \/ basename h f (js ".ts") = name)
          /\ forall x, In x pre -> fileNameMatches h name x = false)
  /\ (forall pre f post,
        targetFiles = pre ++ f :: post ->
        fileNameMatches h name f = true ->
        (forall x, In x pre -> fileNameMatches h name x = false) ->
        f <> [] ->
        fileMatch h name targetFiles = [f]).
Proof.
  split; [apply getImports_parts|]. unfold fileMatch. split; [|split].
  - destruct (find _ targetFiles) as [f|]; simpl; [|lia].
    destruct (truthy f); simpl; lia.
  - intros f Hf.
    destruct (find (fileNameMatches h name) targetFiles) as [g|] eqn:F;
      [|destruct Hf].
    destruct (truthy g); [|destruct Hf].
    destruct Hf as [<-|[]].
    apply find_first in F as (pre & post & E & Hg & Hpre).
    exists pre, post. rewrite <- fileNameMatches_iff. auto.
  - intros pre f post E Hf Hpre Hne.
    assert (F : find (fileNameMatches h name) targetFiles = Some f)
      by (apply find_first; eauto).
    rewrite F. apply truthy_nonempty in Hne. now rewrite Hne.
Qed.

Lemma file_match_then_directory_match_witness :
  fileMatch (Posix.host [LF] []) (js "a")
            [js "main.ts"; js "lib/a.d.ts"; js "src/a.ts"]
  = [js "lib/a.d.ts"].
Proof.
  refine (proj2 (proj2 (proj2 (file_match_then_directory_match
            (Posix.host [LF] []) (js "main.ts") (js "a")
            [js "main.ts"; js "lib/a.d.ts"; js "src/a.ts"] [] true)))
          [js "main.ts"] (js "lib/a.d.ts") [js "src/a.ts"] _ _ _ _).
  - reflexivity.
  - reflexivity.
  - intros x [<-|[]]. reflexivity.
  - discriminate.
Defined.

(** C6, as amended.  The alias of a resolved path is the explicit second
    parameter when one is given, is not empty and is not [index] in any
    letter case; without an explicit alias it is the base name without
    [.ts] and then without [.d], replaced by the base name of the
    enclosing directory exactly when it is [index] in some letter case.
    The import and export statements are built on that alias. *)
Theorem alias_of_resolved_path (h : Host) (requested : option jstring)
        (completePathToFile : jstring) :
  (forall v, requested = Some v -> v <> [] ->
             toLowerCase v <> js "index" ->
             aliasOf h requested completePathToFile = v)
  /\ (requested = None \/ requested = Some [] ->
      toLowerCase (strippedBaseName h completePathToFile) <> js "index" ->
      aliasOf h requested completePathToFile
      = basename h (basename h completePathToFile (js ".ts")) (js ".d"))
  /\ (requested = None \/ requested = Some [] ->
      toLowerCase (strippedBaseName h completePathToFile) = js "index" ->
      aliasOf h requested completePathToFile
      = basename h (dirname h completePathToFile) [])
  /\ (forall sourceFile,
         statementFor h Import sourceFile requested completePathToFile
         = js "import " ++ aliasOf h requested completePathToFile
           ++ js " = require('"
           ++ pathToFileOf h Import (dirname h sourceFile) completePathToFile
           ++ js "'); ///ts:import:generated")
  /\ (forall sourceFile,
         statementFor h Export sourceFile requested completePathToFile
         = js "import " ++ aliasOf h requested completePathToFile
           ++ js "_file = require('"
           ++ pathToFileOf h Export (dirname h sourceFile) completePathToFile
           ++ js "'); ///ts:export:generated" ++ EOL h
           ++ js "export var " ++ aliasOf h requested completePathToFile
           ++ js " = " ++ aliasOf h requested completePathToFile
           ++ js "_file; ///ts:export:generated").
Proof.
  unfold aliasOf. repeat split.
  - intros v -> Hne Hidx.
    apply truthy_nonempty in Hne. rewrite Hne.
    apply jeqb_neq in Hidx. now rewrite Hidx.
  - intros [-> | ->] Hidx; cbn [truthy isEmpty negb];
      apply jeqb_neq in Hidx; now rewrite Hidx.
  - intros [-> | ->] Hidx; cbn [truthy isEmpty negb];
      apply jeqb_eq in Hidx; now rewrite Hidx.
  - intro sourceFile. unfold statementFor, template.
    now rewrite <- !app_assoc.
  - intro sourceFile. unfold statementFor, template.
    now rewrite <- !app_assoc.
Qed.

Lemma alias_of_resolved_path_witness :
  aliasOf (Posix.host [LF] []) (Some (js "core")) (js "lib/index.ts") = js "core"
  /\ aliasOf (Posix.host [LF] []) None (js "lib/types.d.ts") = js "types"
  /\ aliasOf (Posix.host [LF] []) None (js "lib/index.ts") = js "lib".
Proof.
  split; [|split].
  - refine (proj1 (alias_of_resolved_path (Posix.host [LF] [])
                     (Some (js "core")) (js "lib/index.ts")) (js "core") _ _ _);
      [reflexivity | discriminate | discriminate].
  - refine (proj1 (proj2 (alias_of_resolved_path (Posix.host [LF] [])
                     None (js "lib/types.d.ts"))) _ _);
      [now left | discriminate].
  - refine (proj1 (proj2 (proj2 (alias_of_resolved_path (Posix.host [LF] [])
                     None (js "lib/index.ts")))) _ _);
      [now left | reflexivity].
Defined.

(* ---------------------------------------------------------------- *)
(** ** Sorting *)

Lemma jltb_asym (a b : jstring) : jltb a b = true -> jltb b a = false.
Proof.
  revert b; induction a as [|x a IH]; intros [|y b]; simpl; try congruence.
  destruct (N.ltb_spec x y), (N.ltb_spec y x); try congruence; try lia.
  apply IH.
Qed.

Lemma insertSorted_perm (x : jstring) (l : list jstring) :
  Permutation (insertSorted x l) (x :: l).
Proof.
  induction l as [|y l IH]; simpl; [reflexivity|].
  destruct (jltb y x); [|reflexivity].
  rewrite IH. apply perm_swap.
Qed.

Lemma insertSorted_sorted (x : jstring) (l : list jstring) :
  Sorted jle l -> Sorted jle (insertSorted x l).
Proof.
  induction 1 as [|y l Hs IH Hhd]; simpl.
  - repeat constructor.
  - destruct (jltb y x) eqn:E.
    + constructor; [exact IH|].
      destruct l as [|z l]; simpl.
      * constructor. now apply jltb_asym.
      * inversion Hhd; subst.
        destruct (jltb z x); constructor; auto. now apply jltb_asym.
    + constructor; [now constructor|]. constructor. exact E.
Qed.

Lemma sortStrings_perm (l : list jstring) : Permutation (sortStrings l) l.
Proof.
  induction l as [|x l IH]; simpl; [reflexivity|].
  rewrite insertSorted_perm. now constructor.
Qed.

Lemma sortStrings_sorted (l : list jstring) : Sorted jle (sortStrings l).
Proof.
  induction l as [|x l IH]; simpl; [constructor|].
  now apply insertSorted_sorted.
Qed.

Lemma jle_trans (a b c : jstring) : jle a b -> jle b c -> jle a c.
Proof.
  unfold jle. revert b c; induction a as [|x a IH]; intros [|y b] [|z c];
    simpl; try congruence.
  destruct (N.ltb_spec y x), (N.ltb_spec x y), (N.ltb_spec z y),
    (N.ltb_spec y z), (N.ltb_spec z x), (N.ltb_spec x z);
    try congruence; try lia.
  apply IH.
Qed.

Lemma sortStrings_strongly_sorted (l : list jstring) :
  StronglySorted jle (sortStrings l).
Proof.
  apply Sorted_StronglySorted; [|apply sortStrings_sorted].
  intros a b c. apply jle_trans.
Qed.

Lemma sortStrings_In (l : list jstring) (p : jstring) :
  In p (sortStrings l) <-> In p l.
Proof.
  split; apply Permutation_in;
    [apply sortStrings_perm | symmetry; apply sortStrings_perm].
Qed.

(* ---------------------------------------------------------------- *)
(** ** The directory match *)

Lemma excludeEntry_false (h : Host) (currentFilePath filename : jstring) :
  excludeEntry h currentFilePath filename = false <->
  relative h currentFilePath filename <> []
  /\ (extname h filename = []
      \/ (endsWith filename (js ".ts") = true
          /\ endsWith filename (js ".d.ts") = false)
      \/ isDirectory h filename = true).
Proof.
  unfold excludeEntry, truthy.
  destruct (relative h currentFilePath filename) as [|c r]; cbn [isEmpty].
  - split; [discriminate|]. intros [N _]. now contradiction N.
  - destruct (extname h filename) as [|e x]; cbn [isEmpty negb andb].
    + split; auto. intros _. split; [discriminate|auto].
    + destruct (endsWith filename (js ".ts")),
        (endsWith filename (js ".d.ts")),
        (isDirectory h filename); cbn; split; intros H;
        try discriminate; try reflexivity;
        try (split; [discriminate|]; auto; fail).
      all: destruct H as [_ [H|[[H1 H2]|H]]]; discriminate.
Qed.

Lemma dirMatch_listing (h : Host) (currentFilePath name dir : jstring)
      (targetDirs : list jstring) (getIndex : bool) :
  find (dirNameMatches h name) targetDirs = Some dir ->
  dir <> [] ->
  getIndex && existsSync h (join h dir (js "index.ts"))
  && negb (isEmpty (relative h currentFilePath (join h dir (js "index.ts"))))
  = false ->
  dirMatch h currentFilePath name targetDirs getIndex
  = sortStrings (getFiles h dir (excludeEntry h currentFilePath)).
Proof.
  intros F Hne Hb. unfold dirMatch. rewrite F.
  apply truthy_nonempty in Hne. rewrite Hne. now rewrite Hb.
Qed.

(** C4, as amended.  When a directory matches and the index branch is
    not taken, the resolver returns the file match followed by the entries
    that [utils.getFiles] lists under the exclusion callback, in ascending
    order of their code units: the members that are not the current file
    and that have no extension, or end in [.ts] but not in [.d.ts], or
    are directories. *)
Theorem directory_members_sorted (h : Host) (currentFilePath name dir : jstring)
        (targetFiles targetDirs : list jstring) (getIndex : bool) :
  find (dirNameMatches h name) targetDirs = Some dir ->
  dir <> [] ->
  getIndex && existsSync h (join h dir (js "index.ts"))
  && negb (isEmpty (relative h currentFilePath (join h dir (js "index.ts"))))
  = false ->
  (forall p, In p (getFiles h dir (excludeEntry h currentFilePath))
             <-> In p (getFiles h dir (fun _ => false))
                 /\ excludeEntry h currentFilePath p = false) ->
  getImports h currentFilePath name targetFiles targetDirs getIndex
  = fileMatch h name targetFiles
    ++ dirMatch h currentFilePath name targetDirs getIndex
  /\ StronglySorted jle (dirMatch h currentFilePath name targetDirs getIndex)
  /\ Permutation (dirMatch h currentFilePath name targetDirs getIndex)
                 (getFiles h dir (excludeEntry h currentFilePath))
  /\ forall p,
      In p (dirMatch h currentFilePath name targetDirs getIndex)
      <-> In p (getFiles h dir (fun _ => false))
          /\ relative h currentFilePath p <> []
          /\ (extname h p = []
              \/ (endsWith p (js ".ts") = true /\ endsWith p (js ".d.ts") = false)
              \/ isDirectory h p = true).
Proof.
  intros F Hne Hb Hlist.
  split; [apply getImports_parts|].
  rewrite (dirMatch_listing h currentFilePath name dir targetDirs getIndex F Hne Hb).
  split; [apply sortStrings_strongly_sorted|].
  split; [apply sortStrings_perm|].
  intro p. rewrite sortStrings_In, Hlist, excludeEntry_false. tauto.
Qed.

Lemma posix_getFiles_filter (t : Posix.Tree) (dir : jstring)
      (exclude : jstring -> bool) (p : jstring) :
  In p (Posix.getFiles t dir exclude)
  <-> In p (Posix.getFiles t dir (fun _ => false)) /\ exclude p = false.
Proof.
  unfold Posix.getFiles. rewrite !filter_In.
  destruct (exclude p); simpl; intuition congruence.
Qed.

Lemma directory_members_sorted_witness :
  StronglySorted jle
    (dirMatch Sample.host (js "main.ts") (js "lib") [js "lib"] false)
  /\ In (js "lib/a.ts")
        (dirMatch Sample.host (js "main.ts") (js "lib") [js "lib"] false).
Proof.
  destruct (directory_members_sorted Sample.host (js "main.ts") (js "lib")
              (js "lib") (currentTargetFiles Sample.targets) [js "lib"] false)
    as (_ & HS & _ & HI).
  - reflexivity.
  - discriminate.
  - reflexivity.
  - intro p. apply posix_getFiles_filter.
  - split; [exact HS|].
    apply HI. split; [|split].
    + vm_compute. tauto.
    + discriminate.
    + right; left. split; reflexivity.
Defined.

(** C5, as amended.  Of the target folders whose base name is the
    requested name only the first is resolved.  When it holds an
    [index.ts] other than the file processed, an import directive expands
    to the statements of the file match and of that index file alone,
    while an export or reference directive expands to the statements of
    the file match and of the sorted listing of that folder's members;
    and a path that is the file processed (the index file in particular)
    is never among what the folder contributes, for any kind. *)
Theorem first_folder_collapses_for_import_only (h : Host) (tg : Targets)
        (sourceFile templateVars name dir : jstring) (requested : option jstring) :
  templateVars <> [] ->
  name = trim (hd [] (splitOn 44 templateVars)) ->
  requested = match splitOn 44 templateVars with
              | _ :: v :: _ => Some (trim v)
              | _ => None
              end ->
  find (dirNameMatches h name) (currentTargetDirs tg) = Some dir ->
  dir <> [] ->
  existsSync h (join h dir (js "index.ts")) = true ->
  relative h sourceFile (join h dir (js "index.ts")) <> [] ->
  getImports h sourceFile name (currentTargetFiles tg) (currentTargetDirs tg)
             (getIndexIfDir Import)
  = fileMatch h name (currentTargetFiles tg) ++ [join h dir (js "index.ts")]
  /\ transform h tg Import sourceFile templateVars
     = map (statementFor h Import sourceFile requested)
           (fileMatch h name (currentTargetFiles tg)
            ++ [join h dir (js "index.ts")])
  /\ (forall k, k = Export \/ k = Reference ->
        getImports h sourceFile name (currentTargetFiles tg) (currentTargetDirs tg)
                   (getIndexIfDir k)
        = fileMatch h name (currentTargetFiles tg)
          ++ sortStrings (getFiles h dir (excludeEntry h sourceFile))
        /\ transform h tg k sourceFile templateVars
           = match fileMatch h name (currentTargetFiles tg)
                   ++ sortStrings (getFiles h dir (excludeEntry h sourceFile)) with
             | [] => [noMatchLine k name]
             | p :: ps => map (statementFor h k sourceFile requested) (p :: ps)
             end)
  /\ (forall k current p,
        relative h current p = [] ->
        (forall q, In q (getFiles h dir (excludeEntry h current)) ->
                   excludeEntry h current q = false) ->
        ~ In p (dirMatch h current name (currentTargetDirs tg) (getIndexIfDir k))).
Proof.
  intros Hne Hname Hreq F Hdir Hex Hrel.
  assert (Ht : truthy dir = true) by now apply truthy_nonempty.
  assert (Htv : truthy templateVars = true) by now apply truthy_nonempty.
  assert (Hnotcur :
            negb (isEmpty (relative h sourceFile (join h dir (js "index.ts")))) = true).
  { destruct (relative h sourceFile (join h dir (js "index.ts"))); [congruence|].
    reflexivity. }
  assert (GI : getImports h sourceFile name (currentTargetFiles tg)
                          (currentTargetDirs tg) (getIndexIfDir Import)
               = fileMatch h name (currentTargetFiles tg)
                 ++ [join h dir (js "index.ts")]).
  { rewrite getImports_parts. unfold dirMatch. rewrite F, Ht.
    cbn [getIndexIfDir andb]. now rewrite Hex, Hnotcur. }
  assert (GO : forall k, k = Export \/ k = Reference ->
               getImports h sourceFile name (currentTargetFiles tg)
                          (currentTargetDirs tg) (getIndexIfDir k)
               = fileMatch h name (currentTargetFiles tg)
                 ++ sortStrings (getFiles h dir (excludeEntry h sourceFile))).
  { intros k [-> | ->]; rewrite getImports_parts; unfold dirMatch;
      rewrite F, Ht; reflexivity. }
  split; [exact GI|]. split; [|split].
  - cbn [transform]. rewrite Htv, <- Hname, <- Hreq, GI.
    destruct (fileMatch h name (currentTargetFiles tg)); reflexivity.
  - intros k Hk. split; [now apply GO|].
    rewrite <- (GO k Hk).
    destruct Hk as [-> | ->]; cbn [transform];
      rewrite Htv, <- Hname, <- Hreq;
      match goal with
      | |- context [getImports ?a ?b ?c ?d ?e ?f] =>
          destruct (getImports a b c d e f); reflexivity
      end.
  - intros k current p Hp Hsound Hin.
    assert (Hx : excludeEntry h current p = true)
      by (unfold excludeEntry; now rewrite Hp).
    unfold dirMatch in Hin. rewrite F, Ht in Hin.
    destruct (getIndexIfDir k
              && existsSync h (join h dir (js "index.ts"))
              && negb (isEmpty (relative h current (join h dir (js "index.ts")))))
             eqn:B.
    + destruct Hin as [<-|[]].
      rewrite Hp in B. cbn [isEmpty negb] in B. now rewrite andb_false_r in B.
    + apply (proj1 (sortStrings_In _ _)) in Hin. apply Hsound in Hin. congruence.
Qed.

Lemma first_folder_collapses_for_import_only_witness :
  transform Sample.host Sample.targets Import (js "main.ts") (js "lib")
  = [js "import lib = require('./lib/index'); ///ts:import:generated"]
  /\ getImports Sample.host (js "main.ts") (js "lib")
                (currentTargetFiles Sample.targets) (currentTargetDirs Sample.targets)
                (getIndexIfDir Export)
     = [js "lib/README"; js "lib/a.ts"; js "lib/b.ts"; js "lib/index.ts"].
Proof.
  destruct (first_folder_collapses_for_import_only Sample.host Sample.targets
              (js "main.ts") (js "lib") (js "lib") (js "lib") None)
    as (_ & HT & HO & _).
  - discriminate.
  - reflexivity.
  - reflexivity.
  - reflexivity.
  - discriminate.
  - reflexivity.
  - discriminate.
  - split; [exact HT|]. exact (proj1 (HO Export (or_introl eq_refl))).
Defined.

(* ================================================================== *)
(** * The second run *)
(* ================================================================== *)

(* ---------------------------------------------------------------- *)
(** ** Splitting and joining *)

Lemma oneLine_app (a b : jstring) : oneLine (a ++ b) = oneLine a && oneLine b.
Proof. apply forallb_app. Qed.

Lemma oneLine_cons (c : N) (s : jstring) :
  oneLine (c :: s) = true -> N.eqb c CR = false /\ N.eqb c LF = false /\ oneLine s = true.
Proof.
  unfold oneLine; simpl. intro H.
  apply andb_true_iff in H as [Hc Hs].
  apply negb_true_iff in Hc. unfold isBreak in Hc.
  apply orb_false_iff in Hc as [H1 H2]. auto.
Qed.

Lemma splitLines_single (l : jstring) : oneLine l = true -> splitLines l = [l].
Proof.
  induction l as [|c l IH]; intro H; [reflexivity|].
  apply oneLine_cons in H as (H1 & H2 & H3).
  cbn [splitLines]. rewrite H1, H2, (IH H3). reflexivity.
Qed.

Lemma splitLines_line_eol (eol l s : jstring) :
  eol = [LF] \/ eol = [CR; LF] ->
  oneLine l = true ->
  splitLines (l ++ eol ++ s) = l :: splitLines s.
Proof.
  intros Heol. induction l as [|c l IH]; intro H.
  - destruct Heol as [-> | ->]; reflexivity.
  - apply oneLine_cons in H as (H1 & H2 & H3).
    cbn [splitLines app]. rewrite H1, H2, (IH H3). reflexivity.
Qed.

Lemma splitLines_join (eol : jstring) (ps : list jstring) :
  eol = [LF] \/ eol = [CR; LF] ->
  ps <> [] ->
  Forall (fun q => oneLine q = true) ps ->
  splitLines (joinLines eol ps) = ps.
Proof.
  intros Heol Hne Hall. induction Hall as [|p ps Hp Hps IH]; [congruence|].
  destruct ps as [|q ps].
  - apply splitLines_single, Hp.
  - cbn [joinLines]. rewrite (splitLines_line_eol _ _ _ Heol Hp).
    f_equal. apply IH. discriminate.
Qed.

Lemma splitLines_join_eol (eol s : jstring) (ps : list jstring) :
  eol = [LF] \/ eol = [CR; LF] ->
  ps <> [] ->
  Forall (fun q => oneLine q = true) ps ->
  splitLines (joinLines eol ps ++ eol ++ s) = ps ++ splitLines s.
Proof.
  intros Heol Hne Hall. induction Hall as [|p ps Hp Hps IH]; [congruence|].
  destruct ps as [|q ps].
  - apply (splitLines_line_eol _ _ _ Heol Hp).
  - cbn [joinLines]. rewrite <- !app_assoc.
    rewrite (splitLines_line_eol _ _ _ Heol Hp).
    cbn [app]. f_equal. apply IH. discriminate.
Qed.

Lemma splitLines_bounded (n : nat) :
  forall s, List.length s <= n ->
            forall l, In l (splitLines s) -> oneLine l = true.
Proof.
  induction n as [|n IH]; intros [|c s] Hlen l Hin; simpl in Hlen.
  - destruct Hin as [<-|[]]. reflexivity.
  - lia.
  - destruct Hin as [<-|[]]. reflexivity.
  - cbn [splitLines] in Hin.
    assert (Hs : forall l', In l' (splitLines s) -> oneLine l' = true)
      by (apply IH; lia).
    destruct (N.eqb c CR) eqn:E1.
    + destruct s as [|d s'].
      * destruct Hin as [<-|Hin]; [reflexivity|now apply Hs].
      * destruct (N.eqb d LF).
        -- destruct Hin as [<-|Hin]; [reflexivity|].
           apply (IH s'); [simpl in Hlen; lia|exact Hin].
        -- destruct Hin as [<-|Hin]; [reflexivity|now apply Hs].
    + destruct (N.eqb c LF) eqn:E2.
      * destruct Hin as [<-|Hin]; [reflexivity|now apply Hs].
      * destruct (splitLines s) as [|l0 ls].
        -- destruct Hin as [<-|[]].
           unfold oneLine, isBreak; simpl. now rewrite E1, E2.
        -- destruct Hin as [<-|Hin].
           ++ unfold oneLine, isBreak; cbn [forallb].
              rewrite E1, E2. cbn. apply (Hs l0). now left.
           ++ apply Hs. now right.
Qed.

Lemma splitLines_oneLine (s l : jstring) :
  In l (splitLines s) -> oneLine l = true.
Proof. apply (splitLines_bounded (List.length s)). lia. Qed.

(* ---------------------------------------------------------------- *)
(** ** What stays on one line *)

Lemma oneLine_forall (s : jstring) :
  oneLine s = true <-> forall c, In c s -> isBreak c = false.
Proof.
  unfold oneLine. rewrite forallb_forall.
  split; intros H c Hc; specialize (H c Hc);
    [now apply negb_true_iff | now apply negb_true_iff].
Qed.

Lemma oneLine_incl (a b : jstring) :
  incl a b -> oneLine b = true -> oneLine a = true.
Proof.
  rewrite !oneLine_forall. intros Hi Hb c Hc. apply Hb, Hi, Hc.
Qed.

Lemma dropWhile_incl (p : N -> bool) (s : jstring) : incl (dropWhile p s) s.
Proof.
  induction s as [|c s IH]; simpl; [apply incl_refl|].
  destruct (p c); [now apply incl_tl | apply incl_refl].
Qed.

Lemma takeWhile_incl (p : N -> bool) (s : jstring) : incl (takeWhile p s) s.
Proof.
  induction s as [|c s IH]; simpl; [apply incl_refl|].
  destruct (p c); [|apply incl_nil_l].
  intros x [<-|Hx]; [now left | right; now apply IH].
Qed.

Lemma firstn_incl_self (n : nat) (s : jstring) : incl (firstn n s) s.
Proof.
  revert s; induction n as [|n IH]; intros [|c s]; simpl;
    try apply incl_nil_l.
  intros x [<-|Hx]; [now left | right; now apply IH].
Qed.

Lemma trim_incl (s : jstring) : incl (trim s) s.
Proof.
  unfold trim. intros c Hc.
  apply in_rev in Hc. apply dropWhile_incl in Hc.
  apply in_rev in Hc. now apply dropWhile_incl in Hc.
Qed.

Lemma stripPrefix_incl (p s r : jstring) : stripPrefix p s = Some r -> incl r s.
Proof.
  intro E. apply stripPrefix_Some in E. subst. now apply incl_appr, incl_refl.
Qed.

Lemma stripTsSuffix_incl (p : jstring) : incl (stripTsSuffix p) p.
Proof.
  unfold stripTsSuffix.
  destruct (endsWith p (js ".d.ts")); [apply firstn_incl_self|].
  destruct (endsWith p (js ".ts")); [apply firstn_incl_self | apply incl_refl].
Qed.

Lemma splitOn_oneLine (sep : N) (s v : jstring) :
  oneLine s = true -> In v (splitOn sep s) -> oneLine v = true.
Proof.
  revert v; induction s as [|c s IH]; intros v Hs Hv.
  - destruct Hv as [<-|[]]. reflexivity.
  - assert (Hc : negb (isBreak c) = true /\ oneLine s = true)
      by (now apply andb_true_iff).
    destruct Hc as [Hc Hs'].
    cbn [splitOn] in Hv. destruct (N.eqb c sep).
    + destruct Hv as [<-|Hv]; [reflexivity | now apply IH].
    + destruct (splitOn sep s) as [|p ps].
      * destruct Hv as [<-|[]]. unfold oneLine; simpl. now rewrite Hc.
      * destruct Hv as [<-|Hv].
        -- unfold oneLine; cbn [forallb]. rewrite Hc. apply (IH p Hs'). now left.
        -- apply IH; auto. now right.
Qed.

Lemma afterSignature_incl (line r : jstring) :
  afterSignature line = Some r -> incl r line.
Proof.
  unfold afterSignature.
  destruct (stripPrefix (js "///") line) as [r1|] eqn:E1; [|discriminate].
  intro E2. apply stripPrefix_incl in E1, E2.
  eapply incl_tran; [exact E2|]. eapply incl_tran; [apply dropWhile_incl|exact E1].
Qed.

Lemma matches_oneLine (k : Kind) (line : jstring) (m : jstring * jstring) :
  oneLine line = true -> matches k line = Some m ->
  oneLine (fst m) = true /\ oneLine (snd m) = true.
Proof.
  intros Hl. unfold matches.
  destruct (afterSignature line) as [r|] eqn:E; [|discriminate].
  apply afterSignature_incl in E.
  assert (Hr : oneLine r = true) by (eapply oneLine_incl; eauto).
  assert (Hdot : forall x, incl x r -> oneLine (dotStar x) = true).
  { intros x Hx. eapply oneLine_incl; [|exact Hr].
    eapply incl_tran; [apply takeWhile_incl|exact Hx]. }
  destruct k.
  1-3: destruct (stripPrefix _ r) as [r'|] eqn:E';
    [apply stripPrefix_incl in E' | discriminate];
    destruct r' as [|c r''];
    [ intros [= <-]; auto
    | destruct (N.eqb c 61); intros [= <-]; cbn [fst snd]; split;
      try reflexivity; apply Hdot; auto;
      eapply incl_tran; [apply incl_tl, incl_refl | exact E'] ].
  intros [= <-]; cbn [fst snd]. split; [apply Hdot, incl_refl | reflexivity].
Qed.

Lemma templateVarsOf_oneLine (m : jstring * jstring) :
  oneLine (fst m) = true -> oneLine (snd m) = true ->
  oneLine (templateVarsOf m) = true.
Proof.
  intros H1 H2. unfold templateVarsOf.
  destruct (truthy (fst m)); [|exact H1].
  destruct (truthy (snd m)); [|exact H2].
  eapply oneLine_incl; [apply trim_incl | exact H2].
Qed.

Lemma marker_at_end (k : Kind) (x : jstring) :
  hasGeneratedMarker (x ++ signatureGenerated k) = true.
Proof.
  assert (E : isGenerated k (x ++ signatureGenerated k) = true).
  { unfold isGenerated.
    rewrite <- (app_nil_r (signatureGenerated k)) at 1. apply contains_app. }
  unfold hasGeneratedMarker. destruct k; rewrite E;
    repeat rewrite orb_true_r; reflexivity.
Qed.

Lemma signatureGenerated_oneLine (k : Kind) : oneLine (signatureGenerated k) = true.
Proof. destruct k; reflexivity. Qed.

Lemma single_block (eol q : jstring) : generatedLine q -> generatedBlock eol q.
Proof.
  intro H. exists [q]. split; [discriminate|]. split; [reflexivity|].
  now constructor.
Qed.

(** Under [LineSafe], what a transformer emits consists of physical
    lines that each carry a generated marker. *)
Section Regeneration.
Variable h : Host.
Variable tg : Targets.
Variable fileToProcess : jstring.
Hypothesis safe : LineSafe h tg fileToProcess.

Lemma getImports_oneLine (name p : jstring) (getIndex : bool) :
  In p (getImports h fileToProcess name (currentTargetFiles tg)
                   (currentTargetDirs tg) getIndex) ->
  oneLine p = true.
Proof.
  rewrite getImports_parts. intro Hin. apply in_app_or in Hin as [Hin|Hin].
  - unfold fileMatch in Hin.
    destruct (find _ (currentTargetFiles tg)) as [f|] eqn:F; [|destruct Hin].
    destruct (truthy f); [|destruct Hin].
    destruct Hin as [<-|[]].
    apply find_some in F as [F _]. now apply (safe_files _ _ _ safe).
  - unfold dirMatch in Hin.
    destruct (find _ (currentTargetDirs tg)) as [d|] eqn:F; [|destruct Hin].
    apply find_some in F as [F _].
    assert (Hd : oneLine d = true) by now apply (safe_dirs _ _ _ safe).
    destruct (truthy d); [|destruct Hin].
    destruct (_ && _ && _).
    + destruct Hin as [<-|[]].
      now apply (safe_join _ _ _ safe).
    + apply (proj1 (sortStrings_In _ _)) in Hin.
      now apply (safe_listing _ _ _ safe) in Hin.
Qed.

Lemma aliasOf_oneLine (requested : option jstring) (p : jstring) :
  (forall v, requested = Some v -> oneLine v = true) ->
  oneLine p = true ->
  oneLine (aliasOf h requested p) = true.
Proof.
  intros Hreq Hp. unfold aliasOf.
  assert (Hs : oneLine (strippedBaseName h p) = true)
    by (unfold strippedBaseName; now repeat apply (safe_basename _ _ _ safe)).
  assert (Hd : oneLine (basename h (dirname h p) []) = true)
    by (apply (safe_basename _ _ _ safe); now apply (safe_dirname _ _ _ safe)).
  destruct requested as [v|].
  - destruct (truthy v).
    + destruct (jeqb _ _); auto.
    + destruct (jeqb _ _); auto.
  - destruct (jeqb _ _); auto.
Qed.

Lemma pathToFileOf_oneLine (k : Kind) (p : jstring) :
  oneLine p = true ->
  oneLine (pathToFileOf h k (dirname h fileToProcess) p) = true.
Proof.
  intro Hp. unfold pathToFileOf.
  apply (safe_relative _ _ _ safe).
  - apply (safe_dirname _ _ _ safe), (safe_source _ _ _ safe).
  - destruct (removeExtensionFromFilePath k); [|exact Hp].
    eapply oneLine_incl; [apply stripTsSuffix_incl | exact Hp].
Qed.

Ltac one_line :=
  repeat rewrite oneLine_app;
  repeat (apply andb_true_intro; split);
  try reflexivity; try assumption; try apply signatureGenerated_oneLine.

Lemma statementFor_block (k : Kind) (requested : option jstring) (p : jstring) :
  k <> Unknown ->
  (forall v, requested = Some v -> oneLine v = true) ->
  oneLine p = true ->
  generatedBlock (EOL h) (statementFor h k fileToProcess requested p).
Proof.
  intros Hk Hreq Hp.
  pose proof (aliasOf_oneLine requested p Hreq Hp) as Ha.
  pose proof (pathToFileOf_oneLine k p Hp) as Hf.
  unfold statementFor.
  set (a := aliasOf h requested p) in *.
  set (f := pathToFileOf h k (dirname h fileToProcess) p) in *.
  destruct k; [| |apply single_block; split|congruence].
  - apply single_block; split.
    + unfold template. one_line.
    + rewrite app_assoc. apply marker_at_end.
  - exists [ (js "import " ++ a ++ js "_file = require('" ++ f ++ js "'); ")
             ++ signatureGenerated Export;
             (js "export var " ++ a ++ js " = " ++ a ++ js "_file;" ++ js " ")
             ++ signatureGenerated Export ].
    split; [discriminate|]. split.
    + unfold template. cbn [joinLines]. now rewrite <- !app_assoc.
    + repeat constructor; try apply marker_at_end; one_line.
  - unfold template. one_line.
  - rewrite app_assoc. apply marker_at_end.
Qed.

Lemma transform_blocks (k : Kind) (templateVars e : jstring) :
  oneLine templateVars = true ->
  In e (transform h tg k fileToProcess templateVars) ->
  generatedBlock (EOL h) e.
Proof.
  intros Hv Hin.
  assert (Hsyn : forall k', generatedBlock (EOL h) (syntaxError k')).
  { intro k'. apply single_block. split.
    - destruct k'; reflexivity.
    - destruct k'; unfold syntaxError;
        try (rewrite !app_assoc; apply marker_at_end); apply marker_at_end. }
  destruct k; [| | |destruct Hin as [<-|[]]; apply Hsyn].
  all: cbn [transform] in Hin;
    destruct (truthy templateVars); [|destruct Hin as [<-|[]]; apply Hsyn].
  all: set (vars := splitOn 44 templateVars) in *;
    assert (Hvars : forall v, In v vars -> oneLine v = true)
      by (intros v; apply splitOn_oneLine; exact Hv);
    assert (Hname : oneLine (trim (hd [] vars)) = true)
      by (eapply oneLine_incl; [apply trim_incl|];
          destruct vars as [|v0 ?]; [reflexivity | apply Hvars; now left]);
    set (req := match vars with _ :: v :: _ => Some (trim v) | _ => None end) in *;
    assert (Hreq : forall v, req = Some v -> oneLine v = true)
      by (intros v; subst req; destruct vars as [|v0 [|v1 ?]]; try discriminate;
          intros [= <-]; eapply oneLine_incl; [apply trim_incl|];
          apply Hvars; right; now left).
  all: match type of Hin with
       | In _ (match ?imports with _ => _ end) =>
           pose proof (fun p => getImports_oneLine (trim (hd [] vars)) p _ : In p imports -> _) as Himp;
           destruct imports as [|i0 imports'] eqn:Ei
       end.
  all: try (destruct Hin as [<-|[]]; apply single_block; split;
            [ unfold noMatchLine; one_line
            | unfold noMatchLine; rewrite !app_assoc; apply marker_at_end ]).
  all: apply in_map_iff in Hin as (p & <- & Hp);
    apply statementFor_block; auto; discriminate.
Qed.
End Regeneration.

Lemma generatedBlock_lineBlock (eol e : jstring) :
  generatedBlock eol e -> lineBlock eol e.
Proof.
  intros (ps & Hne & E & Hall). exists ps. repeat split; auto.
  eapply Forall_impl; [|exact Hall]. now intros q [Hq _].
Qed.

Lemma splitLines_blocks (eol : jstring) (out : list jstring) :
  eol = [LF] \/ eol = [CR; LF] ->
  Forall (lineBlock eol) out -> out <> [] ->
  splitLines (joinLines eol out) = flat_map splitLines out.
Proof.
  intros Heol Hall Hne. induction Hall as [|e out He Hout IH]; [congruence|].
  destruct He as (ps & Hps & -> & Hlines).
  destruct out as [|e2 out].
  - cbn [joinLines flat_map]. now rewrite app_nil_r.
  - cbn [joinLines]. rewrite (splitLines_join_eol _ _ _ Heol Hps Hlines).
    cbn [flat_map]. rewrite (splitLines_join _ _ Heol Hps Hlines).
    f_equal. apply IH. discriminate.
Qed.

(** The second run drops those lines again and regenerates the same
    ones. *)
Section SecondRun.
Variable h : Host.
Variable tg : Targets.
Variable fileToProcess : jstring.
Hypothesis native_eol : EOL h = [LF] \/ EOL h = [CR; LF].
Hypothesis safe : LineSafe h tg fileToProcess.

Let rw := rewriteLine h tg fileToProcess.

Lemma rewriteLine_blocks (line : jstring) :
  oneLine line = true -> Forall (lineBlock (EOL h)) (rw line).
Proof.
  intro Hl. subst rw. unfold rewriteLine.
  destruct (hasGeneratedMarker line); [constructor|].
  assert (Hself : lineBlock (EOL h) line).
  { exists [line]. repeat split; [discriminate | now constructor]. }
  destruct (claimedBy line) as [[k m]|] eqn:C; [|now repeat constructor].
  constructor; [exact Hself|].
  apply Forall_forall. intros e He.
  apply generatedBlock_lineBlock.
  apply (transform_blocks h tg fileToProcess safe k (templateVarsOf m)); [|exact He].
  assert (Hm : exists k', matches k' line = Some m).
  { unfold claimedBy in C.
    destruct (matches Import line) eqn:E1; [exists Import; congruence|].
    destruct (matches Export line) eqn:E2; [exists Export; congruence|].
    destruct (matches Reference line) eqn:E3; [exists Reference; congruence|].
    destruct (matches Unknown line) eqn:E4; [exists Unknown; congruence|].
    discriminate. }
  destruct Hm as [k' Hm].
  destruct (matches_oneLine k' line m Hl Hm).
  now apply templateVarsOf_oneLine.
Qed.

Lemma generated_block_vanishes (e : jstring) :
  generatedBlock (EOL h) e -> flat_map rw (splitLines e) = [].
Proof.
  intros (ps & Hne & -> & Hall).
  rewrite splitLines_join; auto.
  - clear Hne. induction Hall as [|q ps [_ Hq] _ IH]; [reflexivity|].
    cbn [flat_map]. rewrite IH. subst rw. unfold rewriteLine. now rewrite Hq.
  - eapply Forall_impl; [|exact Hall]. now intros q [Hq _].
Qed.

Lemma rewriteLine_again (line : jstring) :
  oneLine line = true ->
  flat_map rw (flat_map splitLines (rw line)) = rw line.
Proof.
  intro Hl.
  assert (Hself : flat_map rw [line] = rw line)
    by (cbn [flat_map]; apply app_nil_r).
  unfold rw at 2 3. unfold rewriteLine.
  destruct (hasGeneratedMarker line) eqn:G; [reflexivity|].
  destruct (claimedBy line) as [[k m]|] eqn:C.
  - cbn [flat_map]. rewrite (splitLines_single _ Hl), flat_map_app, Hself.
    assert (Hgone : flat_map rw (flat_map splitLines
                      (transform h tg k fileToProcess (templateVarsOf m))) = []).
    { assert (Hb : Forall (generatedBlock (EOL h))
                          (transform h tg k fileToProcess (templateVarsOf m))).
      { apply Forall_forall. intros e He.
        apply (transform_blocks h tg fileToProcess safe k (templateVarsOf m));
          [|exact He].
        assert (Hm : exists k', matches k' line = Some m).
        { unfold claimedBy in C.
          destruct (matches Import line) eqn:E1; [exists Import; congruence|].
          destruct (matches Export line) eqn:E2; [exists Export; congruence|].
          destruct (matches Reference line) eqn:E3; [exists Reference; congruence|].
          destruct (matches Unknown line) eqn:E4; [exists Unknown; congruence|].
          discriminate. }
        destruct Hm as [k' Hm].
        destruct (matches_oneLine k' line m Hl Hm).
        now apply templateVarsOf_oneLine. }
      induction Hb as [|e es He _ IH]; [reflexivity|].
      cbn [flat_map]. rewrite flat_map_app, IH, app_nil_r.
      now apply generated_block_vanishes. }
    rewrite Hgone, app_nil_r.
    subst rw. unfold rewriteLine. now rewrite G, C.
  - cbn [flat_map]. rewrite app_nil_r, (splitLines_single _ Hl), Hself.
    subst rw. unfold rewriteLine. now rewrite G, C.
Qed.

Lemma rewrite_lines_again (lines : list jstring) :
  Forall (fun l => oneLine l = true) lines ->
  flat_map rw (flat_map splitLines (flat_map rw lines)) = flat_map rw lines.
Proof.
  induction 1 as [|l lines Hl _ IH]; [reflexivity|].
  cbn [flat_map]. rewrite !flat_map_app, IH.
  now rewrite rewriteLine_again.
Qed.

Lemma transformContent_again (contents : jstring) :
  transformContent h tg fileToProcess (transformContent h tg fileToProcess contents)
  = transformContent h tg fileToProcess contents.
Proof.
  unfold transformContent. rewrite !loopLines_flat_map. cbn [app].
  fold rw.
  assert (Hlines : Forall (fun l => oneLine l = true) (splitLines contents))
    by (apply Forall_forall; intros l; apply splitLines_oneLine).
  destruct (flat_map rw (splitLines contents)) as [|o out] eqn:E.
  - reflexivity.
  - rewrite <- E. rewrite splitLines_blocks; auto.
    + now rewrite rewrite_lines_again.
    + clear E. induction Hlines as [|l ls Hl _ IH]; [constructor|].
      cbn [flat_map]. apply Forall_app. split; [|exact IH].
      now apply rewriteLine_blocks.
    + rewrite E. discriminate.
Qed.
End SecondRun.

(* ---------------------------------------------------------------- *)
(** ** The POSIX host keeps paths on one line *)

Lemma components_oneLine (p : jstring) :
  oneLine p = true -> allOneLine (Posix.components p).
Proof.
  intros Hp x Hx. unfold Posix.components in Hx.
  apply filter_In in Hx as [Hx _]. now apply (splitOn_oneLine 47 p).
Qed.

Lemma last_oneLine (l : list jstring) : allOneLine l -> oneLine (last l []) = true.
Proof.
  induction l as [|x l IH]; intro H; [reflexivity|].
  destruct l as [|y l]; [apply H; now left|].
  apply IH. intros z Hz. apply H. now right.
Qed.

Lemma removelast_oneLine (l : list jstring) :
  allOneLine l -> allOneLine (removelast l).
Proof.
  induction l as [|x l IH]; intros H z Hz; [destruct Hz|].
  destruct l as [|y l]; [destruct Hz|].
  destruct Hz as [<-|Hz]; [apply H; now left|].
  apply IH; [|exact Hz]. intros w Hw. apply H. now right.
Qed.

Lemma joinLines_oneLine (sep : jstring) (l : list jstring) :
  oneLine sep = true -> allOneLine l -> oneLine (joinLines sep l) = true.
Proof.
  intros Hsep. induction l as [|x l IH]; intro H; [reflexivity|].
  destruct l as [|y l]; [apply H; now left|].
  cbn [joinLines]. rewrite !oneLine_app, Hsep, (H x (or_introl eq_refl)).
  apply IH. intros w Hw. apply H. now right.
Qed.

Lemma posix_basename_oneLine (p e : jstring) :
  oneLine p = true -> oneLine (Posix.basename p e) = true.
Proof.
  intro Hp. unfold Posix.basename.
  pose proof (last_oneLine _ (components_oneLine p Hp)) as Hl.
  destruct (_ && _); [|exact Hl].
  eapply oneLine_incl; [apply firstn_incl_self | exact Hl].
Qed.

Lemma posix_dirname_oneLine (p : jstring) :
  oneLine p = true -> oneLine (Posix.dirname p) = true.
Proof.
  intro Hp. unfold Posix.dirname.
  pose proof (removelast_oneLine _ (components_oneLine p Hp)) as Hl.
  destruct (removelast (Posix.components p)) as [|d ds].
  - destruct (Posix.isAbsolute p); reflexivity.
  - rewrite oneLine_app. apply andb_true_intro. split.
    + destruct (Posix.isAbsolute p); reflexivity.
    + now apply joinLines_oneLine.
Qed.

Lemma normalize_oneLine (todo done : list jstring) :
  allOneLine done -> allOneLine todo -> allOneLine (Posix.normalize done todo).
Proof.
  revert done; induction todo as [|c todo IH]; intros done Hd Ht.
  - intros x Hx. apply Hd. now apply in_rev.
  - assert (Ht' : allOneLine todo) by (intros x Hx; apply Ht; now right).
    assert (Hc : oneLine c = true) by (apply Ht; now left).
    assert (Hcd : allOneLine (c :: done))
      by (intros x [<-|Hx]; auto).
    cbn [Posix.normalize].
    destruct (jeqb c (js ".")); [now apply IH|].
    destruct (jeqb c (js "..")); [|now apply IH].
    destruct done as [|d done']; [apply IH; auto; intros x [<-|[]]; auto|].
    destruct (jeqb d (js "..")); [now apply IH|].
    apply IH; auto. intros x Hx. apply Hd. now right.
Qed.

Lemma normalized_oneLine (p : jstring) :
  oneLine p = true -> allOneLine (Posix.normalized p).
Proof.
  intro Hp. apply normalize_oneLine; [intros x []|now apply components_oneLine].
Qed.

Lemma posix_join_oneLine (a b : jstring) :
  oneLine a = true -> oneLine b = true -> oneLine (Posix.join a b) = true.
Proof.
  intros Ha Hb. unfold Posix.join.
  assert (Hab : oneLine (a ++ js "/" ++ b) = true)
    by (rewrite !oneLine_app, Ha, Hb; reflexivity).
  pose proof (normalized_oneLine _ Hab) as Hn.
  destruct (Posix.normalized (a ++ js "/" ++ b)) as [|c cs].
  - destruct (Posix.isAbsolute a); reflexivity.
  - rewrite oneLine_app. apply andb_true_intro. split.
    + destruct (Posix.isAbsolute a); reflexivity.
    + now apply joinLines_oneLine.
Qed.

Lemma dropCommon_oneLine (a b : list jstring) :
  allOneLine a -> allOneLine b ->
  allOneLine (fst (Posix.dropCommon a b)) /\ allOneLine (snd (Posix.dropCommon a b)).
Proof.
  revert b; induction a as [|x a IH]; intros b Ha Hb; [now split|].
  destruct b as [|y b]; [now split|].
  cbn [Posix.dropCommon]. destruct (jeqb x y); [|now split].
  apply IH; intros z Hz; [apply Ha | apply Hb]; now right.
Qed.

Lemma posix_relative_oneLine (from to : jstring) :
  oneLine from = true -> oneLine to = true ->
  oneLine (Posix.relative from to) = true.
Proof.
  intros Hf Ht. unfold Posix.relative.
  destruct (dropCommon_oneLine _ _ (normalized_oneLine _ Hf)
                               (normalized_oneLine _ Ht)) as [Hu Hd].
  destruct (Posix.dropCommon _ _) as [up down]. cbn [fst snd] in *.
  apply joinLines_oneLine; [reflexivity|].
  intros x Hx. apply in_app_or in Hx as [Hx|Hx]; [|now apply Hd].
  apply in_map_iff in Hx as (_ & <- & _). reflexivity.
Qed.

Lemma posix_makeRelativePath_oneLine (d p : jstring) (force : bool) :
  oneLine d = true -> oneLine p = true ->
  oneLine (Posix.makeRelativePath d p force) = true.
Proof.
  intros Hd Hp. unfold Posix.makeRelativePath.
  pose proof (posix_relative_oneLine _ _ Hd Hp) as Hr.
  destruct (_ && _); [|exact Hr].
  now rewrite oneLine_app, Hr.
Qed.

Lemma posix_line_safe (eol : jstring) (t : Posix.Tree) (tg : Targets)
      (fileToProcess : jstring) :
  forallb (fun e => oneLine (fst e)) t = true ->
  forallb oneLine (currentTargetFiles tg) = true ->
  forallb oneLine (currentTargetDirs tg) = true ->
  oneLine fileToProcess = true ->
  LineSafe (Posix.host eol t) tg fileToProcess.
Proof.
  intros Ht Hf Hd Hs.
  rewrite forallb_forall in Ht, Hf, Hd.
  constructor; cbn [basename dirname join makeRelativePath getFiles Posix.host];
    auto.
  - intros; now apply posix_basename_oneLine.
  - intros; now apply posix_dirname_oneLine.
  - intros; now apply posix_join_oneLine.
  - intros; now apply posix_makeRelativePath_oneLine.
  - intros d ex p _ Hp. unfold Posix.getFiles in Hp.
    apply filter_In in Hp as [Hp _].
    apply in_map_iff in Hp as (e & <- & He).
    apply filter_In in He as [He _]. now apply Ht.
Qed.

(** C1, as amended.  On a host whose line end is LF or CRLF, and with
    paths (target files, target directories, directory listings, the file
    processed) that hold no CR or LF, transforming the transformed content
    gives it back unchanged, so the second run writes nothing. *)
Theorem second_run_changes_nothing (h : Host) (tg : Targets)
        (fileToProcess contents : jstring) :
  EOL h = [LF] \/ EOL h = [CR; LF] ->
  LineSafe h tg fileToProcess ->
  transformContent h tg fileToProcess
    (transformContent h tg fileToProcess contents)
  = transformContent h tg fileToProcess contents
  /\ processContents h tg fileToProcess
       (transformContent h tg fileToProcess contents)
     = None.
Proof.
  intros Heol Hsafe.
  pose proof (transformContent_again h tg fileToProcess Heol Hsafe contents) as E.
  split; [exact E|].
  unfold processContents.
  destruct (containsTransformSignature _); [|reflexivity].
  cbn [negb]. rewrite E, jeqb_refl. reflexivity.
Qed.

Lemma second_run_changes_nothing_witness :
  transformContent Sample.host Sample.targets (js "main.ts")
    (transformContent Sample.host Sample.targets (js "main.ts") staleContents)
  = transformContent Sample.host Sample.targets (js "main.ts") staleContents
  /\ processContents Sample.host Sample.targets (js "main.ts")
       (transformContent Sample.host Sample.targets (js "main.ts") staleContents)
     = None.
Proof.
  apply second_run_changes_nothing.
  - now left.
  - apply posix_line_safe; reflexivity.
Defined.

(* ================================================================== *)
(** * Where the design document and the code part ways *)
(* ================================================================== *)

(** C3, as stated, fails on a file without directive whose line ends are
    not the host's: its transformed content differs from its contents,
    and yet nothing is written. *)
Lemma unwritten_though_changed :
  transformContent Sample.host Sample.targets (js "main.ts")
    (stripLeadingBOM (js "var a;" ++ [CR; LF] ++ js "var b;"))
  <> stripLeadingBOM (js "var a;" ++ [CR; LF] ++ js "var b;")
  /\ processFile Sample.host Sample.targets (js "main.ts")
       (js "var a;" ++ [CR; LF] ++ js "var b;")
     = None.
Proof. split; [discriminate | reflexivity]. Qed.

(** C4, as stated, fails on the sample directory: the file without
    extension is returned; the script, which has an extension and is
    neither a declaration file nor a directory, is not; and the
    declaration file is left out although it has no plain variant. *)
Lemma directory_members_not_as_described :
  getImports Sample.host (js "main.ts") (js "lib")
             (currentTargetFiles Sample.targets) (currentTargetDirs Sample.targets)
             false
  = [js "lib/README"; js "lib/a.ts"; js "lib/b.ts"; js "lib/index.ts"]
  /\ extname Sample.host (js "lib/README") = []
  /\ (In (js "lib/util.js") (getFiles Sample.host (js "lib") (fun _ => false))
      /\ relative Sample.host (js "main.ts") (js "lib/util.js") <> []
      /\ extname Sample.host (js "lib/util.js") = js ".js"
      /\ endsWith (js "lib/util.js") (js ".d.ts") = false
      /\ isDirectory Sample.host (js "lib/util.js") = false)
  /\ (In (js "lib/types.d.ts") (getFiles Sample.host (js "lib") (fun _ => false))
      /\ existsSync Sample.host (js "lib/types.ts") = false).
Proof.
  split; [reflexivity|]. split; [reflexivity|]. split.
  - split; [vm_compute; tauto|].
    split; [discriminate|]. repeat split; reflexivity.
  - split; [vm_compute; tauto | reflexivity].
Qed.

(** C5, as stated, fails when two target folders share the requested
    name: the second one matches, holds an index file that is not the
    file processed, and yet no kind resolves it. *)
Lemma second_folder_of_the_name_is_not_resolved :
  getTargetFolders TwoLibs.host 8 TwoLibs.targetFiles
  = Some (currentTargetDirs TwoLibs.targets)
  /\ dirNameMatches TwoLibs.host (js "lib") (js "b/lib") = true
  /\ existsSync TwoLibs.host (join TwoLibs.host (js "b/lib") (js "index.ts")) = true
  /\ relative TwoLibs.host (js "main.ts")
              (join TwoLibs.host (js "b/lib") (js "index.ts")) <> []
  /\ transform TwoLibs.host TwoLibs.targets Import (js "main.ts") (js "lib")
     = [js "import lib = require('./a/lib/index'); ///ts:import:generated"]
  /\ getImports TwoLibs.host (js "main.ts") (js "lib")
                (currentTargetFiles TwoLibs.targets)
                (currentTargetDirs TwoLibs.targets) (getIndexIfDir Import)
     = [js "a/lib/index.ts"]
  /\ getImports TwoLibs.host (js "main.ts") (js "lib")
                (currentTargetFiles TwoLibs.targets)
                (currentTargetDirs TwoLibs.targets) (getIndexIfDir Export)
     = [js "a/lib/index.ts"; js "a/lib/x.ts"]
  /\ getImports TwoLibs.host (js "main.ts") (js "lib")
                (currentTargetFiles TwoLibs.targets)
                (currentTargetDirs TwoLibs.targets) (getIndexIfDir Reference)
     = [js "a/lib/index.ts"; js "a/lib/x.ts"].
Proof.
  repeat split; try reflexivity. discriminate.
Qed.

(** C6, as stated, fails for a file named [Index.ts]: its base name is
    not literally [index], and yet the alias is the directory name. *)
Lemma capital_index_takes_directory_name :
  strippedBaseName Sample.host (js "lib/Index.ts") = js "Index"
  /\ js "Index" <> js "index"
  /\ aliasOf Sample.host None (js "lib/Index.ts") = js "lib"
  /\ transform Sample.host Sample.capitalTargets Import (js "main.ts") (js "Index")
     = [js "import lib = require('./lib/Index'); ///ts:import:generated"].
Proof. repeat split; try reflexivity. discriminate. Qed.

(** An explicit alias that reads [index] in some letter case is replaced
    as well. *)
Example explicit_index_alias_replaced :
  transform Sample.host Sample.targets Import (js "main.ts") (js "a,Index")
  = [js "import lib = require('./lib/a'); ///ts:import:generated"].
Proof. reflexivity. Qed.

(** C7, as stated, fails for a keyword that only starts like a recognized
    one: the line is claimed by the reference kind, not the unknown one. *)
Lemma longer_keyword_claimed_by_prefix :
  containsTransformSignature (js "///ts:reference=core") = true
  /\ keywordOf (js "///ts:reference=core") = Some (js "reference")
  /\ recognizedKeyword (js "reference") = false
  /\ claimedBy (js "///ts:reference=core") = Some (Reference, ([], js "erence=core"))
  /\ rewriteLine Sample.host Sample.targets (js "main.ts") (js "///ts:reference=core")
     = [js "///ts:reference=core";
        js "/// Invalid syntax for ts:ref=<fileOrDirectoryName> ///ts:ref:generated"].
Proof. repeat split; reflexivity. Qed.

(** A signature that does not open its line is claimed by no kind. *)
Example indented_signature_unclaimed :
  containsTransformSignature (js "  ///ts:include=core") = true
  /\ claimedBy (js "  ///ts:include=core") = None
  /\ rewriteLine Sample.host Sample.targets (js "main.ts") (js "  ///ts:include=core")
     = [js "  ///ts:include=core"].
Proof. repeat split; reflexivity. Qed.

(** C1, as stated, fails when a resolved path holds a line feed: the
    first half of the generated statement carries no marker, survives the
    second run, and the file grows. *)
Lemma second_run_differs_on_multiline_path :
  transformContent Sample.oddHost Sample.oddTargets (js "main.ts")
    (transformContent Sample.oddHost Sample.oddTargets (js "main.ts")
       (js "///ts:ref=odd"))
  <> transformContent Sample.oddHost Sample.oddTargets (js "main.ts")
       (js "///ts:ref=odd").
Proof. vm_compute. discriminate. Qed.

(* ================================================================== *)
(** * The folder index *)
(* ================================================================== *)

Lemma existsb_jeqb (d : jstring) (l : list jstring) :
  existsb (jeqb d) l = true <-> In d l.
Proof.
  rewrite existsb_exists. split.
  - intros (x & Hx & E). apply jeqb_eq in E. now subst.
  - intro H. exists d. split; [exact H | apply jeqb_refl].
Qed.

Lemma inFolders_iff (d : jstring) (folders : list jstring) :
  inFolders d folders = true <-> In d folders \/ In d inheritedNames.
Proof.
  unfold inFolders. now rewrite orb_true_iff, !existsb_jeqb.
Qed.

Lemma inFolders_incl (d : jstring) (a b : list jstring) :
  incl a b -> inFolders d a = true -> inFolders d b = true.
Proof.
  rewrite !inFolders_iff. intros Hab [H|H]; [left; now apply Hab | now right].
Qed.

Lemma ancestor_shift (h : Host) (n : nat) (p : jstring) :
  ancestor h n (dirname h p) = ancestor h (S n) p.
Proof.
  induction n as [|n IH]; [reflexivity|].
  cbn [ancestor] in *. now rewrite IH.
Qed.

Lemma walkUp_stop (h : Host) (fuel : nat) (dir : jstring) (folders : list jstring) :
  negb (jeqb dir (js ".")) && negb (inFolders dir folders) = false ->
  walkUp h fuel dir folders = Some folders.
Proof. intro E. destruct fuel; cbn [walkUp]; now rewrite E. Qed.

Lemma walkUp_go (h : Host) (fuel : nat) (dir : jstring) (folders : list jstring) :
  negb (jeqb dir (js ".")) && negb (inFolders dir folders) = true ->
  walkUp h (S fuel) dir folders
  = walkUp h fuel (dirname h dir) (folders ++ [dir]).
Proof. intro E. cbn [walkUp]. now rewrite E. Qed.

Lemma walkUp_facts (h : Host) (fuel : nat) :
  forall dir folders result,
    walkUp h fuel dir folders = Some result ->
    incl folders result
    /\ (NoDup folders -> NoDup result)
    /\ (forall d, In d result ->
                  In d folders
                  \/ (d <> js "." /\ ~ In d inheritedNames
                      /\ (d = dir \/ exists n, d = ancestor h n dir)))
    /\ (dir = js "." \/ inFolders dir result = true)
    /\ (forall d, In d result ->
                  In d folders \/ dirname h d = js "."
                  \/ inFolders (dirname h d) result = true).
Proof.
  induction fuel as [|fuel IH]; intros dir folders result;
    destruct (negb (jeqb dir (js ".")) && negb (inFolders dir folders)) eqn:C.
  - cbn [walkUp]. rewrite C. discriminate.
  - rewrite (walkUp_stop h _ _ _ C). intros [= <-].
    apply andb_false_iff in C.
    repeat split; auto using incl_refl.
    destruct C as [C|C]; apply negb_false_iff in C;
      [left; now apply jeqb_eq | now right].
  - rewrite (walkUp_go h _ _ _ C). intro W.
    apply andb_true_iff in C as [C1 C2].
    apply negb_true_iff in C1, C2. apply jeqb_neq in C1.
    assert (Hnot : ~ (In dir folders \/ In dir inheritedNames)).
    { rewrite <- inFolders_iff. congruence. }
    destruct (IH _ _ _ W) as (Hincl & Hnd & Hprov & Hdir & Hclosed).
    assert (Hsub : incl folders result)
      by (intros x Hx; apply Hincl, in_or_app; now left).
    assert (Hin : In dir result)
      by (apply Hincl, in_or_app; right; now left).
    split; [exact Hsub|]. split; [|split; [|split]].
    + intro N. apply Hnd. apply NoDup_app; [exact N | repeat constructor; intros [] |].
      intros x Hx [<-|[]]. apply Hnot. now left.
    + intros d Hd. destruct (Hprov d Hd) as [Hd'|(Hd1 & Hd2 & Hd3)].
      * apply in_app_or in Hd' as [Hd'|[<-|[]]]; [now left|].
        right. repeat split; auto.
      * right. repeat split; auto. right.
        destruct Hd3 as [->|[n ->]]; [now exists 0|].
        exists (S n). apply ancestor_shift.
    + right. apply inFolders_iff. now left.
    + intros d Hd. destruct (Hclosed d Hd) as [Hd'|Hd']; [|now right].
      apply in_app_or in Hd' as [Hd'|[<-|[]]]; [now left|].
      right. destruct Hdir as [->|Hdir]; auto.
  - rewrite (walkUp_stop h _ _ _ C). intros [= <-].
    apply andb_false_iff in C.
    repeat split; auto using incl_refl.
    destruct C as [C|C]; apply negb_false_iff in C;
      [left; now apply jeqb_eq | now right].
Qed.

Lemma eachTargetFile_facts (h : Host) (fuel : nat) (targetFiles : list jstring) :
  forall folders result,
    eachTargetFile h fuel targetFiles folders = Some result ->
    incl folders result
    /\ (NoDup folders -> NoDup result)
    /\ (forall d, In d result ->
                  In d folders
                  \/ (d <> js "." /\ ~ In d inheritedNames
                      /\ exists f n, In f targetFiles /\ d = ancestor h n f))
    /\ (forall f, In f targetFiles ->
                  dirname h f = js "." \/ inFolders (dirname h f) result = true)
    /\ (forall d, In d result ->
                  In d folders \/ dirname h d = js "."
                  \/ inFolders (dirname h d) result = true).
Proof.
  induction targetFiles as [|f rest IH]; intros folders result; cbn [eachTargetFile].
  - intros [= <-]. repeat split; auto using incl_refl; try now intros ? [].
  - destruct (walkUp h fuel (dirname h f) folders) as [mid|] eqn:W; [|discriminate].
    intro E.
    destruct (walkUp_facts h fuel _ _ _ W) as (Wi & Wn & Wp & Wd & Wc).
    destruct (IH _ _ E) as (Ei & En & Ep & Ef & Ec).
    split; [eapply incl_tran; eauto|]. split; [auto|]. split; [|split].
    + intros d Hd. destruct (Ep d Hd) as [Hd'|(H1 & H2 & g & n & Hg & ->)].
      * destruct (Wp d Hd') as [Hd''|(H1 & H2 & H3)]; [now left|].
        right. repeat split; auto.
        destruct H3 as [->|[n ->]].
        -- exists f, 0. split; [now left | reflexivity].
        -- exists f, (S n). split; [now left | apply ancestor_shift].
      * right. repeat split; auto. exists g, n. split; [now right | reflexivity].
    + intros g [<-|Hg]; [|now apply Ef].
      destruct Wd as [Wd|Wd]; [now left|].
      right. eapply inFolders_incl; eauto.
    + intros d Hd. destruct (Ec d Hd) as [Hd'|Hd']; [|now right].
      destruct (Wc d Hd') as [Hd''|[Hd''|Hd'']]; auto.
      right; right. eapply inFolders_incl; eauto.
Qed.

Lemma insertIndex_perm (x : jstring) (l : list jstring) :
  Permutation (insertIndex x l) (x :: l).
Proof.
  induction l as [|y l IH]; simpl; [reflexivity|].
  destruct (N.ltb _ _); [|reflexivity].
  rewrite IH. apply perm_swap.
Qed.

Lemma objectKeys_perm (own : list jstring) : Permutation (objectKeys own) own.
Proof.
  unfold objectKeys.
  transitivity (filter isArrayIndex own
                ++ filter (fun k => negb (isArrayIndex k)) own).
  - apply Permutation_app_tail.
    induction (filter isArrayIndex own) as [|x l IH]; simpl; [reflexivity|].
    rewrite insertIndex_perm. now constructor.
  - induction own as [|x own IH]; simpl; [reflexivity|].
    destruct (isArrayIndex x); simpl.
    + now constructor.
    + rewrite <- Permutation_middle. now constructor.
Qed.

Lemma objectKeys_In (own : list jstring) (d : jstring) :
  In d (objectKeys own) <-> In d own.
Proof.
  split; apply Permutation_in;
    [apply objectKeys_perm | symmetry; apply objectKeys_perm].
Qed.

Lemma walkUp_enough (h : Host) (fuel : nat) :
  Ascends h ->
  forall dir folders,
    List.length dir < fuel -> exists result, walkUp h fuel dir folders = Some result.
Proof.
  intro Hasc. induction fuel as [|fuel IH]; intros dir folders Hlen; [lia|].
  destruct (negb (jeqb dir (js ".")) && negb (inFolders dir folders)) eqn:C.
  - rewrite (walkUp_go h _ _ _ C).
    apply andb_true_iff in C as [C1 _].
    apply negb_true_iff in C1. apply jeqb_neq in C1.
    destruct (Hasc dir C1) as [E|[E|E]].
    + rewrite E. eexists. now apply walkUp_stop.
    + rewrite E.
      assert (I : inFolders dir (folders ++ [dir]) = true)
        by (apply inFolders_iff; left; apply in_or_app; right; now left).
      exists (folders ++ [dir]). apply walkUp_stop.
      rewrite I. apply andb_false_r.
    + apply IH. lia.
  - eexists. now apply walkUp_stop.
Qed.

Lemma walkUp_more (h : Host) (fuel : nat) :
  forall dir folders result,
    walkUp h fuel dir folders = Some result ->
    forall fuel', fuel <= fuel' -> walkUp h fuel' dir folders = Some result.
Proof.
  induction fuel as [|fuel IH]; intros dir folders result W fuel' Hle;
    destruct (negb (jeqb dir (js ".")) && negb (inFolders dir folders)) eqn:C.
  - cbn [walkUp] in W. rewrite C in W. discriminate.
  - rewrite (walkUp_stop h 0 _ _ C) in W.
    now rewrite (walkUp_stop h fuel' _ _ C).
  - destruct fuel' as [|fuel']; [lia|].
    rewrite (walkUp_go h fuel _ _ C) in W.
    rewrite (walkUp_go h fuel' _ _ C). apply (IH _ _ _ W). lia.
  - rewrite (walkUp_stop h (S fuel) _ _ C) in W.
    now rewrite (walkUp_stop h fuel' _ _ C).
Qed.

Lemma eachTargetFile_enough (h : Host) (fuel : nat) (targetFiles : list jstring) :
  Ascends h ->
  (forall f, In f targetFiles -> List.length (dirname h f) < fuel) ->
  forall folders, exists result,
      eachTargetFile h fuel targetFiles folders = Some result.
Proof.
  intros Hasc. induction targetFiles as [|f rest IH]; intros Hlen folders;
    cbn [eachTargetFile]; [eauto|].
  destruct (walkUp_enough h fuel Hasc (dirname h f) folders) as [mid ->];
    [apply Hlen; now left|].
  apply IH. intros g Hg. apply Hlen. now right.
Qed.

Lemma eachTargetFile_more (h : Host) (fuel fuel' : nat) (targetFiles : list jstring) :
  fuel <= fuel' ->
  forall folders result,
    eachTargetFile h fuel targetFiles folders = Some result ->
    eachTargetFile h fuel' targetFiles folders = Some result.
Proof.
  intro Hle. induction targetFiles as [|f rest IH]; intros folders result;
    cbn [eachTargetFile]; [auto|].
  destruct (walkUp h fuel (dirname h f) folders) as [mid|] eqn:W; [|discriminate].
  rewrite (walkUp_more h fuel _ _ _ W fuel' Hle). apply IH.
Qed.

(** X1.  With a [path.dirname] that leads upwards, the walk of
    [getTargetFolders] ends by its own condition once the fuel exceeds the
    length of every target file's directory, and more fuel does not change
    the result. *)
Theorem getTargetFolders_terminates (h : Host) (targetFiles : list jstring)
        (fuel fuel' : nat) :
  Ascends h ->
  (forall f, In f targetFiles -> List.length (dirname h f) < fuel) ->
  fuel <= fuel' ->
  exists dirs,
    getTargetFolders h fuel targetFiles = Some dirs
    /\ getTargetFolders h fuel' targetFiles = Some dirs.
Proof.
  intros Hasc Hlen Hle. unfold getTargetFolders.
  destruct (eachTargetFile_enough h fuel targetFiles Hasc Hlen []) as [folders E].
  rewrite E, (eachTargetFile_more h fuel fuel' targetFiles Hle _ _ E).
  eauto.
Qed.

(** X2.  No entry of the folder set is [.] or a name inherited from
    [Object.prototype]; every entry is an ancestor directory of some
    target file; and no entry occurs twice. *)
Theorem getTargetFolders_sound (h : Host) (fuel : nat)
        (targetFiles dirs : list jstring) :
  getTargetFolders h fuel targetFiles = Some dirs ->
  NoDup dirs
  /\ forall d, In d dirs ->
               d <> js "." /\ ~ In d inheritedNames
               /\ exists f n, In f targetFiles /\ d = ancestor h n f.
Proof.
  unfold getTargetFolders.
  destruct (eachTargetFile h fuel targetFiles []) as [folders|] eqn:E;
    [|discriminate].
  intros [= <-].
  destruct (eachTargetFile_facts h fuel targetFiles _ _ E) as (_ & Hnd & Hp & _).
  split.
  - eapply Permutation_NoDup; [symmetry; apply objectKeys_perm|].
    apply Hnd. constructor.
  - intros d Hd. apply (proj1 (objectKeys_In _ _)) in Hd.
    destruct (Hp d Hd) as [[]|H]. exact H.
Qed.

(** X3.  The folder set holds the directory of every target file and is
    closed under [path.dirname], up to [.] and the inherited names, at
    which the walk stops. *)
Theorem getTargetFolders_complete (h : Host) (fuel : nat)
        (targetFiles dirs : list jstring) :
  getTargetFolders h fuel targetFiles = Some dirs ->
  (forall f, In f targetFiles ->
             dirname h f = js "." \/ In (dirname h f) inheritedNames
             \/ In (dirname h f) dirs)
  /\ (forall d, In d dirs ->
                dirname h d = js "." \/ In (dirname h d) inheritedNames
                \/ In (dirname h d) dirs).
Proof.
  unfold getTargetFolders.
  destruct (eachTargetFile h fuel targetFiles []) as [folders|] eqn:E;
    [|discriminate].
  intros [= <-].
  destruct (eachTargetFile_facts h fuel targetFiles _ _ E) as (_ & _ & _ & Hf & Hc).
  split.
  - intros f Hf'. destruct (Hf f Hf') as [H|H]; [now left|].
    apply inFolders_iff in H as [H|H]; [|auto].
    right; right. now apply objectKeys_In.
  - intros d Hd. apply (proj1 (objectKeys_In _ _)) in Hd.
    destruct (Hc d Hd) as [[]|[H|H]]; [now left|].
    apply inFolders_iff in H as [H|H]; [|auto].
    right; right. now apply objectKeys_In.
Qed.

(* ---------------------------------------------------------------- *)
(** ** The POSIX [dirname] leads upwards *)

Lemma totalLength_cons (x : jstring) (l : list jstring) :
  totalLength (x :: l) = List.length x + totalLength l.
Proof. reflexivity. Qed.

Lemma splitOn_total (sep : N) (s : jstring) :
  totalLength (splitOn sep s) + List.length (splitOn sep s) = S (List.length s).
Proof.
  induction s as [|c s IH]; [reflexivity|].
  cbn [splitOn]. destruct (N.eqb c sep).
  - rewrite totalLength_cons. cbn [List.length]. lia.
  - destruct (splitOn sep s) as [|p ps].
    + cbn in IH. lia.
    + rewrite !totalLength_cons in *. cbn [List.length] in *. lia.
Qed.

Lemma filter_truthy_total (l : list jstring) :
  totalLength (filter truthy l) = totalLength l
  /\ List.length (filter truthy l) <= List.length l.
Proof.
  induction l as [|x l [IH1 IH2]]; [split; reflexivity|].
  destruct x as [|c x]; cbn [filter truthy isEmpty negb];
    rewrite ?totalLength_cons; cbn [List.length]; lia.
Qed.

Lemma joinLines_slash_length (l : list jstring) :
  l <> [] ->
  S (List.length (joinLines (js "/") l)) = totalLength l + List.length l.
Proof.
  induction l as [|x l IH]; [congruence|]. intros _.
  destruct l as [|y l].
  - cbn. lia.
  - change (joinLines (js "/") (x :: y :: l))
      with (x ++ js "/" ++ joinLines (js "/") (y :: l)).
    rewrite !length_app.
    specialize (IH ltac:(discriminate)).
    rewrite !totalLength_cons in *. cbn [List.length] in *.
    change (List.length (js "/")) with 1. lia.
Qed.

Lemma removelast_total (l : list jstring) :
  l <> [] ->
  totalLength (removelast l) + List.length (last l []) = totalLength l
  /\ S (List.length (removelast l)) = List.length l.
Proof.
  induction l as [|x l IH]; [congruence|]. intros _.
  destruct l as [|y l].
  - cbn. lia.
  - specialize (IH ltac:(discriminate)).
    change (removelast (x :: y :: l)) with (x :: removelast (y :: l)).
    change (last (x :: y :: l) []) with (last (y :: l) []).
    rewrite !totalLength_cons in *. cbn [List.length] in *. lia.
Qed.

Lemma last_truthy (l : list jstring) :
  l <> [] -> Forall (fun x => truthy x = true) l -> last l [] <> [].
Proof.
  induction l as [|x l IH]; [congruence|]. intros _ H.
  inversion H as [|? ? Hx Hl]; subst.
  destruct l as [|y l].
  - cbn. now apply truthy_nonempty.
  - apply IH; [discriminate | exact Hl].
Qed.

Lemma isAbsolute_slash (p : jstring) :
  Posix.isAbsolute p = true -> exists r, p = 47%N :: r.
Proof.
  destruct p as [|c r]; [discriminate|].
  unfold Posix.isAbsolute; cbn [startsWith]. intro A.
  apply andb_true_iff in A as [A _]. apply N.eqb_eq in A. subst. eauto.
Qed.

Lemma posix_dirname_ascends (p : jstring) :
  Posix.dirname p = js "." \/ Posix.dirname p = p
  \/ List.length (Posix.dirname p) < List.length p.
Proof.
  unfold Posix.dirname.
  set (pieces := splitOn 47 p).
  assert (Hp : totalLength pieces + List.length pieces = S (List.length p))
    by apply splitOn_total.
  assert (Hc : Posix.components p = filter truthy pieces) by reflexivity.
  destruct (filter_truthy_total pieces) as [Ht Hn]. rewrite <- Hc in Ht, Hn.
  assert (Habs : Posix.isAbsolute p = true ->
                 S (List.length (Posix.components p)) <= List.length pieces).
  { intro A. destruct (isAbsolute_slash p A) as [r ->].
    rewrite Hc. subst pieces. cbn [splitOn]. rewrite N.eqb_refl.
    cbn [filter truthy isEmpty negb List.length].
    pose proof (proj2 (filter_truthy_total (splitOn 47 r))). lia. }
  destruct (removelast (Posix.components p)) as [|d ds] eqn:R.
  - destruct (Posix.isAbsolute p) eqn:A; [|now left].
    right. destruct (isAbsolute_slash p A) as [[|c r] ->].
    + left. reflexivity.
    + right. cbn. lia.
  - right; right.
    assert (Hne : Posix.components p <> [])
      by (intro E; rewrite E in R; discriminate).
    destruct (removelast_total _ Hne) as [Hrt Hrn].
    assert (Hlast : last (Posix.components p) [] <> []).
    { apply last_truthy; [exact Hne|]. rewrite Hc.
      apply Forall_forall. intros x Hx. now apply filter_In in Hx. }
    assert (Hl : 1 <= List.length (last (Posix.components p) [])).
    { destruct (last (Posix.components p) []); [congruence | cbn; lia]. }
    rewrite R in Hrt, Hrn.
    pose proof (joinLines_slash_length (d :: ds) ltac:(discriminate)) as Hj.
    rewrite length_app.
    destruct (Posix.isAbsolute p) eqn:A.
    + specialize (Habs eq_refl). change (List.length (js "/")) with 1. lia.
    + cbn [List.length]. lia.
Qed.

Lemma posix_ascends (eol : jstring) (t : Posix.Tree) : Ascends (Posix.host eol t).
Proof. intros p _. apply posix_dirname_ascends. Qed.

Lemma getTargetFolders_terminates_witness :
  exists dirs,
    getTargetFolders Sample.host 8 (currentTargetFiles Sample.targets) = Some dirs
    /\ getTargetFolders Sample.host 30 (currentTargetFiles Sample.targets) = Some dirs.
Proof.
  apply getTargetFolders_terminates.
  - apply posix_ascends.
  - intros f Hf. cbn in Hf.
    repeat (destruct Hf as [<-|Hf]; [vm_compute; lia|]). destruct Hf.
  - lia.
Defined.

Lemma getTargetFolders_sound_witness :
  NoDup [js "lib"]
  /\ forall d, In d [js "lib"] ->
               d <> js "." /\ ~ In d inheritedNames
               /\ exists f n, In f (currentTargetFiles Sample.targets)
                              /\ d = ancestor Sample.host n f.
Proof.
  apply (getTargetFolders_sound Sample.host 8). reflexivity.
Defined.

Lemma getTargetFolders_complete_witness :
  (forall f, In f (currentTargetFiles Sample.targets) ->
             dirname Sample.host f = js "."
             \/ In (dirname Sample.host f) inheritedNames
             \/ In (dirname Sample.host f) [js "lib"])
  /\ (forall d, In d [js "lib"] ->
                dirname Sample.host d = js "."
                \/ In (dirname Sample.host d) inheritedNames
                \/ In (dirname Sample.host d) [js "lib"]).
Proof.
  apply (getTargetFolders_complete Sample.host 8). reflexivity.
Defined.

(* ================================================================== *)
(** * More on the transformers *)
(* ================================================================== *)

Lemma startsWith_split (p s : jstring) :
  startsWith p s = true -> exists b, s = p ++ b.
Proof.
  revert s; induction p as [|x p IH]; intros s H; [now exists s|].
  destruct s as [|y s]; [discriminate|].
  cbn [startsWith] in H. apply andb_true_iff in H as [E H].
  apply N.eqb_eq in E. subst y.
  destruct (IH s H) as [b ->]. now exists b.
Qed.

Lemma contains_split (s needle : jstring) :
  contains s needle = true -> exists a b, s = a ++ needle ++ b.
Proof.
  induction s as [|c s IH]; cbn [contains]; intro H.
  - rewrite orb_false_r in H. apply startsWith_split in H as [b ->].
    now exists [], b.
  - apply orb_true_iff in H as [H|H].
    + apply startsWith_split in H as [b ->]. now exists [], b.
    + destruct (IH H) as (a & b & ->). now exists (c :: a), b.
Qed.

Lemma dropWhile_split (p : N -> bool) (s t : jstring) (x : N) :
  dropWhile p s = x :: t ->
  exists ws, s = ws ++ x :: t /\ forallb p ws = true /\ p x = false.
Proof.
  induction s as [|c s IH]; cbn [dropWhile]; [discriminate|].
  destruct (p c) eqn:E.
  - intro H. destruct (IH H) as (ws & -> & Hws & Hx).
    exists (c :: ws). cbn. now rewrite E.
  - intros [= -> ->]. now exists [].
Qed.

Lemma afterSignature_app (line r b : jstring) :
  afterSignature line = Some r -> afterSignature (line ++ b) = Some (r ++ b).
Proof.
  unfold afterSignature at 1.
  destruct (stripPrefix (js "///") line) as [r1|] eqn:E1; [|discriminate].
  intro E2.
  apply stripPrefix_Some in E1. apply stripPrefix_Some in E2.
  change (js "ts:" ++ r) with (116%N :: (js "s:" ++ r)) in E2.
  apply dropWhile_split in E2 as (ws & -> & Hws & _).
  subst line. rewrite <- !app_assoc. cbn [app].
  change (116%N :: js "s:" ++ r ++ b) with (js "ts:" ++ r ++ b).
  now apply afterSignature_head.
Qed.

Lemma signature_found_behind (a s : jstring) :
  containsTransformSignature s = true ->
  containsTransformSignature (a ++ s) = true.
Proof.
  intro H. induction a as [|c a IH]; [exact H|].
  cbn [app containsTransformSignature].
  destruct (afterSignature (c :: a ++ s)); [reflexivity | exact IH].
Qed.

Lemma signature_found_before (s b : jstring) :
  containsTransformSignature s = true ->
  containsTransformSignature (s ++ b) = true.
Proof.
  induction s as [|c s IH]; intro H.
  - cbn in H. discriminate.
  - cbn [containsTransformSignature] in H.
    change ((c :: s) ++ b) with (c :: (s ++ b)).
    cbn [containsTransformSignature].
    change (c :: (s ++ b)) with ((c :: s) ++ b).
    destruct (afterSignature (c :: s)) as [r|] eqn:E.
    + now rewrite (afterSignature_app _ _ b E).
    + destruct (afterSignature ((c :: s) ++ b)); [reflexivity | now apply IH].
Qed.

Lemma signature_found_inside (a s b : jstring) :
  containsTransformSignature s = true ->
  containsTransformSignature (a ++ s ++ b) = true.
Proof.
  intro H. now apply signature_found_behind, signature_found_before.
Qed.

Lemma afterSignature_found (s r : jstring) :
  afterSignature s = Some r -> containsTransformSignature s = true.
Proof.
  intro E. destruct s; cbn [containsTransformSignature]; now rewrite E.
Qed.

Lemma marker_is_signature (line : jstring) :
  hasGeneratedMarker line = true -> containsTransformSignature line = true.
Proof.
  intro H.
  assert (K : exists k, isGenerated k line = true).
  { unfold hasGeneratedMarker in H.
    repeat (apply orb_true_iff in H as [H|H]); eauto. }
  destruct K as [k K]. apply contains_split in K as (a & b & ->).
  apply signature_found_inside.
  apply (afterSignature_found _ (key k ++ js ":generated")).
  unfold signatureGenerated.
  apply (afterSignature_head [] (key k ++ js ":generated")). reflexivity.
Qed.

Lemma claimed_is_signature (line : jstring) (c : Kind * (jstring * jstring)) :
  claimedBy line = Some c -> containsTransformSignature line = true.
Proof.
  unfold claimedBy, matches. intro H.
  destruct (afterSignature line) as [r|] eqn:E; [|discriminate].
  now apply (afterSignature_found _ r).
Qed.

Lemma splitLines_within (n : nat) :
  forall s, List.length s <= n ->
            forall l, In l (splitLines s) -> exists a b, s = a ++ l ++ b.
Proof.
  induction n as [|n IH]; intros [|c s] Hlen l Hin; cbn [List.length] in Hlen;
    try lia.
  - destruct Hin as [<-|[]]. now exists [], [].
  - destruct Hin as [<-|[]]. now exists [], [].
  - assert (Hs : forall l', In l' (splitLines s) -> exists a b, s = a ++ l' ++ b)
      by (apply IH; lia).
    assert (Hskip : In l (splitLines s) -> exists a b, c :: s = a ++ l ++ b).
    { intro H. destruct (Hs l H) as (a & b & ->). now exists (c :: a), b. }
    cbn [splitLines] in Hin.
    destruct (N.eqb c CR).
    + destruct s as [|d s'].
      * destruct Hin as [<-|Hin]; [now exists [], [c] | auto].
      * destruct (N.eqb d LF).
        -- destruct Hin as [<-|Hin]; [now exists [], (c :: d :: s')|].
           destruct (IH s' ltac:(cbn in Hlen; lia) l Hin) as (a & b & ->).
           now exists (c :: d :: a), b.
        -- destruct Hin as [<-|Hin]; [now exists [], (c :: d :: s') | auto].
    + destruct (N.eqb c LF).
      * destruct Hin as [<-|Hin]; [now exists [], (c :: s) | auto].
      * destruct (splitLines s) as [|l0 ls] eqn:E.
        -- destruct Hin as [<-|[]]. exists [], s. now rewrite app_nil_l.
        -- destruct Hin as [<-|Hin].
           ++ destruct (Hs l0 (or_introl eq_refl)) as (a & b & Hab).
              (* the first line of [s] starts at its first character *)
              clear Hskip.
              assert (Hfirst : exists b', s = l0 ++ b').
              { clear -E. revert l0 ls E.
                induction s as [|x s IHs]; intros l0 ls E.
                - injection E as <- <-. now exists [].
                - cbn [splitLines] in E. destruct (N.eqb x CR).
                  + destruct s as [|y s']; [|destruct (N.eqb y LF)];
                      injection E as <- <-; now eexists.
                  + destruct (N.eqb x LF); [injection E as <- <-; now eexists|].
                    destruct (splitLines s) as [|l1 ls1] eqn:E1.
                    * injection E as <- <-. now exists s.
                    * injection E as <- <-.
                      destruct (IHs _ _ eq_refl) as [b' ->]. now exists b'. }
              destruct Hfirst as [b' ->]. now exists [], b'.
           ++ apply Hskip. now right.
Qed.

(** X4.  A file that the signature test skips holds no line that the
    loop would drop or expand: its rewrite would only replace its line
    ends by the host's. *)
Theorem skipped_file_has_nothing_to_rewrite (h : Host) (tg : Targets)
        (fileToProcess contents : jstring) :
  containsTransformSignature contents = false ->
  loopLines h tg fileToProcess (splitLines contents) [] = splitLines contents
  /\ transformContent h tg fileToProcess contents
     = joinLines (EOL h) (splitLines contents).
Proof.
  intro Hno.
  assert (Hkeep : forall l, In l (splitLines contents) ->
                            rewriteLine h tg fileToProcess l = [l]).
  { intros l Hl.
    destruct (splitLines_within (List.length contents) contents (le_n _) l Hl)
      as (a & b & E).
    assert (Hl' : containsTransformSignature l = false).
    { destruct (containsTransformSignature l) eqn:C; [|reflexivity].
      rewrite E, (signature_found_inside a l b C) in Hno. discriminate. }
    unfold rewriteLine.
    destruct (hasGeneratedMarker l) eqn:G.
    - apply marker_is_signature in G. congruence.
    - destruct (claimedBy l) as [c|] eqn:C; [|reflexivity].
      apply claimed_is_signature in C. congruence. }
  assert (E : flat_map (rewriteLine h tg fileToProcess) (splitLines contents)
              = splitLines contents).
  { induction (splitLines contents) as [|l ls IH]; [reflexivity|].
    cbn [flat_map]. rewrite (Hkeep l (or_introl eq_refl)), IH; [reflexivity|].
    intros l' Hl'. apply Hkeep. now right. }
  unfold transformContent. rewrite loopLines_flat_map, E. now split.
Qed.

Lemma skipped_file_has_nothing_to_rewrite_witness :
  transformContent Sample.host Sample.targets (js "main.ts")
    (js "var a;" ++ [CR; LF] ++ js "var b;")
  = js "var a;" ++ [LF] ++ js "var b;".
Proof.
  refine (proj2 (skipped_file_has_nothing_to_rewrite Sample.host Sample.targets
                   (js "main.ts") (js "var a;" ++ [CR; LF] ++ js "var b;") _)).
  reflexivity.
Defined.

Lemma ends_with_marker_generated (k : Kind) (x : jstring) :
  isGenerated k (x ++ signatureGenerated k) = true.
Proof.
  unfold isGenerated.
  rewrite <- (app_nil_r (signatureGenerated k)) at 1. apply contains_app.
Qed.

(** X5.  A transformer always emits at least one element, and every
    element it emits ends with its kind's generated marker, so that the
    next run recognizes it as generated. *)
Theorem transform_output_is_marked (h : Host) (tg : Targets) (k : Kind)
        (sourceFile templateVars : jstring) :
  transform h tg k sourceFile templateVars <> []
  /\ Forall (fun e => (exists x, e = x ++ signatureGenerated k)
                      /\ isGenerated k e = true)
            (transform h tg k sourceFile templateVars).
Proof.
  assert (Hmark : forall e, (exists x, e = x ++ signatureGenerated k) ->
                            (exists x, e = x ++ signatureGenerated k)
                            /\ isGenerated k e = true).
  { intros e [x ->]. split; [eauto | apply ends_with_marker_generated]. }
  assert (Hsyn : exists x, syntaxError k = x ++ signatureGenerated k).
  { destruct k; unfold syntaxError; eexists;
      try (rewrite !app_assoc; reflexivity); reflexivity. }
  destruct k; cbn [transform];
    try (destruct (truthy templateVars);
         [|split; [discriminate | repeat constructor; now apply Hmark]]);
    try (split; [discriminate | repeat constructor; now apply Hmark]).
  all: match goal with
       | |- context [getImports ?a ?b ?c ?d ?e ?f] =>
           destruct (getImports a b c d e f) as [|i0 imports]
       end.
  all: try (split; [discriminate|]; repeat constructor; apply Hmark;
            unfold noMatchLine; eexists; rewrite !app_assoc; reflexivity).
  all: split; [discriminate|]; apply Forall_forall; intros e He;
    apply in_map_iff in He as (p & <- & _); apply Hmark;
    unfold statementFor; eexists; rewrite app_assoc; reflexivity.
Qed.

(** X6.  A directive of a recognized kind whose requested name matches
    no target file and no target directory is answered by exactly one
    line, the no-match comment naming the request. *)
Theorem unresolved_name_gives_one_line (h : Host) (tg : Targets) (k : Kind)
        (sourceFile templateVars : jstring) :
  k <> Unknown ->
  templateVars <> [] ->
  (forall f, In f (currentTargetFiles tg) ->
             fileNameMatches h (trim (hd [] (splitOn 44 templateVars))) f = false) ->
  (forall d, In d (currentTargetDirs tg) ->
             dirNameMatches h (trim (hd [] (splitOn 44 templateVars))) d = false) ->
  transform h tg k sourceFile templateVars
  = [js "/// No file or directory matched name " ++ dquote
     ++ trim (hd [] (splitOn 44 templateVars)) ++ dquote ++ js " ///ts:"
     ++ key k ++ js ":generated"].
Proof.
  intros Hk Hne Hf Hd.
  set (name := trim (hd [] (splitOn 44 templateVars))) in *.
  assert (Ff : find (fileNameMatches h name) (currentTargetFiles tg) = None).
  { destruct (find (fileNameMatches h name) (currentTargetFiles tg)) as [f|] eqn:F;
      [|reflexivity].
    apply find_some in F as [F1 F2]. rewrite (Hf f F1) in F2. discriminate. }
  assert (Fd : find (dirNameMatches h name) (currentTargetDirs tg) = None).
  { destruct (find (dirNameMatches h name) (currentTargetDirs tg)) as [d|] eqn:F;
      [|reflexivity].
    apply find_some in F as [F1 F2]. rewrite (Hd d F1) in F2. discriminate. }
  assert (G : forall flag,
             getImports h sourceFile name (currentTargetFiles tg)
                        (currentTargetDirs tg) flag = []).
  { intro flag. rewrite getImports_parts. unfold fileMatch, dirMatch.
    now rewrite Ff, Fd. }
  apply truthy_nonempty in Hne.
  destruct k; try congruence; cbn [transform]; rewrite Hne; fold name;
    rewrite G; reflexivity.
Qed.

Lemma unresolved_name_gives_one_line_witness :
  transform Sample.host Sample.targets Import (js "main.ts") (js "nonexistent")
  = [js "/// No file or directory matched name " ++ dquote ++ js "nonexistent"
     ++ dquote ++ js " ///ts:import:generated"].
Proof.
  refine (unresolved_name_gives_one_line Sample.host Sample.targets Import
            (js "main.ts") (js "nonexistent") _ _ _ _).
  - discriminate.
  - discriminate.
  - intros f Hf. cbn in Hf.
    repeat (destruct Hf as [<-|Hf]; [reflexivity|]). destruct Hf.
  - intros d Hd. cbn in Hd.
    repeat (destruct Hd as [<-|Hd]; [reflexivity|]). destruct Hd.
Defined.

(** X7.  The resolver invents no path: each path it returns is a target
    file whose base name matches the request, or the [index.ts] of a
    target directory whose base name is the request, or an entry that
    [utils.getFiles] lists for such a directory under the exclusion
    callback. *)
Theorem resolved_paths_come_from_the_targets (h : Host)
        (currentFilePath name : jstring) (targetFiles targetDirs : list jstring)
        (getIndex : bool) :
  Forall (fun p =>
            (In p targetFiles /\ fileNameMatches h name p = true)
            \/ exists d, In d targetDirs /\ basename h d [] = name
                         /\ (p = join h d (js "index.ts")
                             \/ In p (getFiles h d (excludeEntry h currentFilePath))))
         (getImports h currentFilePath name targetFiles targetDirs getIndex).
Proof.
  rewrite getImports_parts. apply Forall_app. split.
  - unfold fileMatch.
    destruct (find _ targetFiles) as [f|] eqn:F; [|constructor].
    destruct (truthy f); constructor; [|constructor].
    left. now apply find_some in F.
  - unfold dirMatch.
    destruct (find _ targetDirs) as [d|] eqn:F; [|constructor].
    apply find_some in F as [F1 F2]. apply jeqb_eq in F2.
    destruct (truthy d); [|constructor].
    destruct (_ && _ && _).
    + constructor; [|constructor]. right. exists d. auto.
    + apply Forall_forall. intros p Hp.
      apply (proj1 (sortStrings_In _ _)) in Hp. right. exists d. auto.
Qed.

Lemma endsWith_app (x e : jstring) : endsWith (x ++ e) e = true.
Proof. unfold endsWith. rewrite rev_app_distr. apply startsWith_app. Qed.

Lemma endsWith_split (s e : jstring) :
  endsWith s e = true -> exists x, s = x ++ e.
Proof.
  unfold endsWith. intro H. apply startsWith_split in H as [b H].
  exists (rev b). rewrite <- (rev_involutive s), H, rev_app_distr.
  now rewrite rev_involutive.
Qed.

Lemma firstn_drop_suffix (x e : jstring) :
  firstn (List.length (x ++ e) - List.length e) (x ++ e) = x.
Proof.
  rewrite length_app.
  replace (List.length x + List.length e - List.length e) with (List.length x + 0)
    by lia.
  rewrite firstn_app_2. cbn. apply app_nil_r.
Qed.

(** X8.  The extension stripping of the import and export paths removes
    one suffix only: the whole [.d.ts] of a declaration file, else the
    [.ts] of a module, and nothing from any other path. *)
Theorem stripTsSuffix_removes_one_suffix (p : jstring) :
  stripTsSuffix (p ++ js ".d.ts") = p
  /\ (endsWith p (js ".d") = false -> stripTsSuffix (p ++ js ".ts") = p)
  /\ (endsWith p (js ".ts") = false -> stripTsSuffix p = p).
Proof.
  split; [|split].
  - unfold stripTsSuffix. rewrite endsWith_app.
    apply (firstn_drop_suffix p (js ".d.ts")).
  - intro Hd. unfold stripTsSuffix.
    destruct (endsWith (p ++ js ".ts") (js ".d.ts")) eqn:E.
    + apply endsWith_split in E as [x E].
      change (js ".d.ts") with (js ".d" ++ js ".ts") in E.
      rewrite app_assoc in E. apply app_inv_tail in E. subst p.
      rewrite endsWith_app in Hd. discriminate.
    + rewrite endsWith_app. apply (firstn_drop_suffix p (js ".ts")).
  - intro Ht. unfold stripTsSuffix.
    destruct (endsWith p (js ".d.ts")) eqn:E.
    + apply endsWith_split in E as [x ->].
      change (js ".d.ts") with (js ".d" ++ js ".ts") in Ht.
      rewrite app_assoc, endsWith_app in Ht. discriminate.
    + now rewrite Ht.
Qed.

Lemma stripTsSuffix_removes_one_suffix_witness :
  stripTsSuffix (js "lib/types.d.ts") = js "lib/types"
  /\ stripTsSuffix (js "lib/a.ts") = js "lib/a"
  /\ stripTsSuffix (js "lib/util.js") = js "lib/util.js".
Proof.
  split; [|split].
  - exact (proj1 (stripTsSuffix_removes_one_suffix (js "lib/types"))).
  - exact (proj1 (proj2 (stripTsSuffix_removes_one_suffix (js "lib/a"))) eq_refl).
  - exact (proj2 (proj2 (stripTsSuffix_removes_one_suffix (js "lib/util.js")))
                 eq_refl).
Defined.




Lemma splitLines_nonempty (s : jstring) : splitLines s <> [].
Proof.
  destruct s as [|c s]; [discriminate|]. cbn [splitLines].
  destruct (N.eqb c CR).
  - destruct s as [|d s']; [discriminate|]. destruct (N.eqb d LF); discriminate.
  - destruct (N.eqb c LF); [discriminate|].
    destruct (splitLines s); discriminate.
Qed.

(** X18.  Splitting and joining with the host's line end keeps the
    lines: the joined text splits into the same lines again, and a text
    already joined with that line end is given back unchanged. *)
Theorem split_join_round_trip (eol contents : jstring) (lines : list jstring) :
  eol = [LF] \/ eol = [CR; LF] ->
  splitLines (joinLines eol (splitLines contents)) = splitLines contents
  /\ (lines <> [] -> forallb oneLine lines = true ->
      joinLines eol (splitLines (joinLines eol lines)) = joinLines eol lines).
Proof.
  intro Heol. split.
  - apply splitLines_join; [exact Heol | apply splitLines_nonempty|].
    apply Forall_forall. intros l. apply splitLines_oneLine.
  - intros Hne Hall. rewrite splitLines_join; auto.
    apply Forall_forall. now apply forallb_forall.
Qed.

Lemma split_join_round_trip_witness :
  splitLines (joinLines [LF] (splitLines (js "a" ++ [CR; LF] ++ js "b" ++ [CR] ++ js "c")))
  = [js "a"; js "b"; js "c"]
  /\ joinLines [CR; LF] (splitLines (joinLines [CR; LF] [js "a"; []; js "c"]))
     = js "a" ++ [CR; LF; CR; LF] ++ js "c".
Proof.
  split.
  - exact (proj1 (split_join_round_trip [LF]
                    (js "a" ++ [CR; LF] ++ js "b" ++ [CR] ++ js "c") []
                    (or_introl eq_refl))).
  - exact (proj2 (split_join_round_trip [CR; LF] [] [js "a"; []; js "c"]
                    (or_intror eq_refl))
                 ltac:(discriminate) eq_refl).
Defined.

(* ================================================================== *)
(** * The run over the changed files *)
(* ================================================================== *)

Section RunFacts.
Variable h : Host.
Variable Disk : Type.
Variable readFileSync : Disk -> jstring -> option jstring.
Variable write : Disk -> jstring -> jstring -> option Disk.

Let run := forEachChanged h Disk readFileSync write.

Lemma forEachChanged_app (tg : Targets) (before after : list jstring) :
  forall d log,
    run tg (before ++ after) d log
    = match thrownAt (run tg before d log) with
      | Some _ => run tg before d log
      | None => run tg after (disk (run tg before d log))
                    (written (run tg before d log))
      end.
Proof.
  subst run. induction before as [|f before IH]; intros d log; [reflexivity|].
  cbn [app forEachChanged].
  destruct (readFileSync d f) as [raw|]; [|reflexivity].
  destruct (processFile h tg f raw) as [c|]; [|apply IH].
  destruct (write d f c) as [d'|]; [apply IH | reflexivity].
Qed.

Lemma forEachChanged_log (tg : Targets) (changedFiles : list jstring) :
  forall d log,
    exists more,
      written (run tg changedFiles d log) = log ++ more
      /\ List.length more <= List.length changedFiles
      /\ Forall (fun fc => In (fst fc) changedFiles
                           /\ exists raw,
                               processFile h tg (fst fc) raw = Some (snd fc))
                more.
Proof.
  subst run. induction changedFiles as [|f rest IH]; intros d log;
    cbn [forEachChanged].
  - exists []. rewrite app_nil_r. repeat split; auto.
  - assert (Hnone : exists more : list (jstring * jstring),
               log = log ++ more
               /\ List.length more <= List.length (f :: rest)
               /\ Forall (fun fc => In (fst fc) (f :: rest)
                                    /\ exists raw,
                                        processFile h tg (fst fc) raw
                                        = Some (snd fc)) more).
    { exists []. rewrite app_nil_r. repeat split; auto. cbn; lia. }
    assert (Hlift : forall more,
               Forall (fun fc => In (fst fc) rest
                                 /\ exists raw,
                                     processFile h tg (fst fc) raw = Some (snd fc))
                      more ->
               Forall (fun fc => In (fst fc) (f :: rest)
                                 /\ exists raw,
                                     processFile h tg (fst fc) raw = Some (snd fc))
                      more).
    { intros more. apply Forall_impl. intros fc [H1 H2]. split; [now right|auto]. }
    destruct (readFileSync d f) as [raw|]; [|exact Hnone].
    destruct (processFile h tg f raw) as [c|] eqn:P.
    + destruct (write d f c) as [d'|]; [|exact Hnone].
      destruct (IH d' (log ++ [(f, c)])) as (more & E & Hlen & Hall).
      exists ((f, c) :: more). rewrite E, <- app_assoc. split; [reflexivity|].
      split; [cbn; lia|]. constructor; [|now apply Hlift].
      split; [now left | now exists raw].
    + destruct (IH d log) as (more & E & Hlen & Hall).
      exists more. split; [exact E|]. split; [cbn; lia | now apply Hlift].
Qed.
End RunFacts.

(** X9.  A run writes changed files only, at most one per entry of the
    changed list, and each write is the rewrite of some content that the
    per-file step found changed. *)
Theorem transformFiles_writes_changed_files_only (h : Host) (Disk : Type)
        (readFileSync : Disk -> jstring -> option jstring)
        (write : Disk -> jstring -> jstring -> option Disk)
        (fuel : nat) (changedFiles targetFiles : list jstring) (d : Disk)
        (r : Run Disk) :
  transformFiles h Disk readFileSync write fuel changedFiles targetFiles d = Some r ->
  exists dirs,
    getTargetFolders h fuel targetFiles = Some dirs
    /\ List.length (written r) <= List.length changedFiles
    /\ Forall (fun fc =>
                 In (fst fc) changedFiles
                 /\ exists raw,
                     processFile h (Build_Targets targetFiles dirs) (fst fc) raw
                     = Some (snd fc))
              (written r).
Proof.
  unfold transformFiles.
  destruct (getTargetFolders h fuel targetFiles) as [dirs|]; [|discriminate].
  intros [= <-]. exists dirs. split; [reflexivity|].
  destruct (forEachChanged_log h Disk readFileSync write
              (Build_Targets targetFiles dirs) changedFiles d [])
    as (more & -> & Hlen & Hall).
  auto.
Qed.

(** X10.  The run over a list of changed files composes: it is the run
    over a first part, followed, unless that one threw, by the run over
    the rest from the disk and the writes it left. *)
Theorem forEachChanged_composes (h : Host) (Disk : Type)
        (readFileSync : Disk -> jstring -> option jstring)
        (write : Disk -> jstring -> jstring -> option Disk)
        (tg : Targets) (before after : list jstring) (d : Disk)
        (log : list (jstring * jstring)) :
  forEachChanged h Disk readFileSync write tg (before ++ after) d log
  = match thrownAt (forEachChanged h Disk readFileSync write tg before d log) with
    | Some _ => forEachChanged h Disk readFileSync write tg before d log
    | None =>
        forEachChanged h Disk readFileSync write tg after
          (disk (forEachChanged h Disk readFileSync write tg before d log))
          (written (forEachChanged h Disk readFileSync write tg before d log))
    end.
Proof. apply forEachChanged_app. Qed.

(** X11.  A changed file that cannot be read ends the run: the files
    listed after it are neither read nor written, whatever they are. *)
Theorem unreadable_file_aborts_run (h : Host) (Disk : Type)
        (readFileSync : Disk -> jstring -> option jstring)
        (write : Disk -> jstring -> jstring -> option Disk)
        (fuel : nat) (before after targetFiles : list jstring)
        (unreadable : jstring) (d : Disk) (r : Run Disk) :
  (forall d', readFileSync d' unreadable = None) ->
  transformFiles h Disk readFileSync write fuel
                 (before ++ unreadable :: after) targetFiles d = Some r ->
  thrownAt r <> None
  /\ transformFiles h Disk readFileSync write fuel
                    (before ++ [unreadable]) targetFiles d = Some r.
Proof.
  intro Hbad. unfold transformFiles.
  destruct (getTargetFolders h fuel targetFiles) as [dirs|]; [|discriminate].
  rewrite !forEachChanged_app.
  destruct (thrownAt (forEachChanged h Disk readFileSync write _ before d []))
    as [g|] eqn:T.
  - intros [= <-]. rewrite T. split; [discriminate | reflexivity].
  - cbn [forEachChanged]. rewrite Hbad. intros [= <-].
    split; [discriminate | reflexivity].
Qed.

(* ---------------------------------------------------------------- *)
(** ** The second run *)

Lemma stripLeadingBOM_same (s : jstring) :
  ~ In BOM (firstn 1 s) -> stripLeadingBOM s = s.
Proof.
  destruct s as [|c s]; [reflexivity|]. cbn. intro H.
  destruct (N.eqb_spec c BOM); [|reflexivity].
  exfalso. apply H. left. assumption.
Qed.

Lemma first_output_is_input (h : Host) (tg : Targets) (fileToProcess : jstring)
      (lines : list jstring) :
  match flat_map (rewriteLine h tg fileToProcess) lines with
  | [] => True
  | l :: _ => In l lines
  end.
Proof.
  induction lines as [|l lines IH]; [exact I|].
  cbn [flat_map]. unfold rewriteLine at 1.
  destruct (hasGeneratedMarker l).
  - cbn [app]. destruct (flat_map _ lines); [exact I | now right].
  - destruct (claimedBy l) as [[k m]|]; cbn [app]; now left.
Qed.

Lemma transformContent_no_leading_BOM (h : Host) (tg : Targets)
      (fileToProcess contents : jstring) :
  EOL h = [LF] \/ EOL h = [CR; LF] ->
  ~ In BOM contents ->
  stripLeadingBOM (transformContent h tg fileToProcess contents)
  = transformContent h tg fileToProcess contents.
Proof.
  intros Heol Hno. apply stripLeadingBOM_same.
  unfold transformContent. rewrite loopLines_flat_map. cbn [app].
  pose proof (first_output_is_input h tg fileToProcess (splitLines contents)) as F.
  destruct (flat_map _ (splitLines contents)) as [|l rest]; [intros []|].
  destruct (splitLines_within (List.length contents) contents (le_n _) l F)
    as (a & b & E).
  assert (Hl : ~ In BOM l).
  { intro H. apply Hno. rewrite E. apply in_or_app. right.
    apply in_or_app. now left. }
  destruct l as [|c l].
  - destruct rest as [|l2 rest]; [intros []|].
    cbn [joinLines app].
    destruct Heol as [-> | ->]; cbn; intros [H|[]]; discriminate.
  - destruct rest as [|l2 rest]; cbn [joinLines firstn app];
      intros [H|[]]; apply Hl; left; exact H.
Qed.

Section Stability.
Variable h : Host.
Variable Disk : Type.
Variable readFileSync : Disk -> jstring -> option jstring.
Variable write : Disk -> jstring -> jstring -> option Disk.
Variable tg : Targets.
Hypothesis laws : DiskLaws Disk readFileSync write.
Hypothesis native_eol : EOL h = [LF] \/ EOL h = [CR; LF].

Let run := forEachChanged h Disk readFileSync write tg.

(** A file is stable on a disk when the per-file step reads it and
    leaves it alone. *)
Let stable (d : Disk) (f : jstring) : Prop :=
  exists raw, readFileSync d f = Some raw /\ processFile h tg f raw = None.

Lemma written_file_is_stable (d d' : Disk) (f raw c : jstring) :
  LineSafe h tg f ->
  ~ In BOM (stripLeadingBOM raw) ->
  processFile h tg f raw = Some c ->
  write d f c = Some d' ->
  stable d' f.
Proof.
  intros Hsafe Hbom P W. exists c.
  split; [exact (read_written _ _ _ laws _ _ _ _ W)|].
  unfold processFile, processContents in P.
  destruct (negb (containsTransformSignature (stripLeadingBOM raw)));
    [discriminate|].
  destruct (negb (jeqb _ _)); [|discriminate].
  injection P as <-.
  unfold processFile.
  rewrite (transformContent_no_leading_BOM h tg f _ native_eol Hbom).
  unfold processContents.
  destruct (containsTransformSignature _); [|reflexivity]. cbn [negb].
  rewrite (transformContent_again h tg f native_eol Hsafe).
  now rewrite jeqb_refl.
Qed.

Lemma stable_run_is_idle (changedFiles : list jstring) :
  forall d log,
    (forall f, In f changedFiles -> stable d f) ->
    run changedFiles d log = {| disk := d; written := log; thrownAt := None |}.
Proof.
  subst run. induction changedFiles as [|f rest IH]; intros d log Hst;
    [reflexivity|].
  cbn [forEachChanged].
  destruct (Hst f (or_introl eq_refl)) as (raw & -> & ->).
  apply IH. intros g Hg. apply Hst. now right.
Qed.

Lemma run_leaves_stable (d0 : Disk) (changedFiles : list jstring) :
  (forall f, In f changedFiles -> LineSafe h tg f) ->
  (forall f raw, In f changedFiles -> readFileSync d0 f = Some raw ->
                 ~ In BOM (stripLeadingBOM raw)) ->
  forall done d log,
    (forall f, In f done -> stable d f) ->
    (forall g, ~ In g done -> readFileSync d g = readFileSync d0 g) ->
    thrownAt (run changedFiles d log) = None ->
    forall f, In f done \/ In f changedFiles ->
              stable (disk (run changedFiles d log)) f.
Proof.
  intros Hsafe Hbom. subst run.
  induction changedFiles as [|f rest IH]; intros done d log Hst Hsame Hok g Hg.
  - destruct Hg as [Hg|[]]. now apply Hst.
  - assert (Hsafe' : forall x, In x rest -> LineSafe h tg x)
      by (intros x Hx; apply Hsafe; now right).
    assert (Hbom' : forall x raw, In x rest -> readFileSync d0 x = Some raw ->
                                  ~ In BOM (stripLeadingBOM raw))
      by (intros x raw Hx; apply Hbom; now right).
    assert (Hg' : In g (f :: done) \/ In g rest).
    { destruct Hg as [Hg|[<-|Hg]]; [left; now right | left; now left | now right]. }
    cbn [forEachChanged] in *.
    destruct (readFileSync d f) as [raw|] eqn:R; [|discriminate].
    destruct (processFile h tg f raw) as [c|] eqn:P.
    + destruct (write d f c) as [d'|] eqn:W; [|discriminate].
      assert (Hnew : ~ In f done).
      { intro Hin. destruct (Hst f Hin) as (raw' & R' & P'). congruence. }
      apply (IH Hsafe' Hbom' (f :: done) d' _); auto.
      * intros x [<-|Hx].
        -- apply (written_file_is_stable d d' f raw c); auto.
           ++ apply Hsafe. now left.
           ++ apply (Hbom f raw); [now left|].
              rewrite <- (Hsame f Hnew). exact R.
        -- destruct (Hst x Hx) as (raw' & R' & P').
           exists raw'. split; [|exact P'].
           rewrite (read_other _ _ _ laws _ _ _ _ x W); [exact R'|].
           intros ->. contradiction.
      * intros x Hx.
        rewrite (read_other _ _ _ laws _ _ _ _ x W).
        -- apply Hsame. intro H. apply Hx. now right.
        -- intros ->. apply Hx. now left.
    + apply (IH Hsafe' Hbom' (f :: done) d _); auto.
      * intros x [<-|Hx]; [now exists raw | now apply Hst].
      * intros x Hx. apply Hsame. intro H. apply Hx. now right.
Qed.
End Stability.

(** X12.  On a disk that reads back what is written, with single-line
    paths, native line ends LF or CRLF and no byte-order mark other than
    a leading one, a run that ended without exception leaves the changed
    files such that a second run writes nothing and leaves the disk as it
    found it. *)
Theorem second_run_writes_nothing (h : Host) (Disk : Type)
        (readFileSync : Disk -> jstring -> option jstring)
        (write : Disk -> jstring -> jstring -> option Disk)
        (fuel : nat) (changedFiles targetFiles dirs : list jstring)
        (d : Disk) (first : Run Disk) :
  DiskLaws Disk readFileSync write ->
  EOL h = [LF] \/ EOL h = [CR; LF] ->
  getTargetFolders h fuel targetFiles = Some dirs ->
  (forall f, In f changedFiles -> LineSafe h (Build_Targets targetFiles dirs) f) ->
  (forall f raw, In f changedFiles -> readFileSync d f = Some raw ->
                 ~ In BOM (stripLeadingBOM raw)) ->
  transformFiles h Disk readFileSync write fuel changedFiles targetFiles d
  = Some first ->
  thrownAt first = None ->
  transformFiles h Disk readFileSync write fuel changedFiles targetFiles (disk first)
  = Some {| disk := disk first; written := []; thrownAt := None |}.
Proof.
  intros Hlaws Heol Hdirs Hsafe Hbom. unfold transformFiles. rewrite Hdirs.
  intros [= <-] Hok. f_equal.
  apply (stable_run_is_idle h Disk readFileSync write).
  intros f Hf.
  apply (run_leaves_stable h Disk readFileSync write _ Hlaws Heol d changedFiles
                           Hsafe Hbom [] d []); auto.
  intros x [].
Qed.

Lemma memdisk_laws : DiskLaws MemDisk.Disk MemDisk.readFileSync MemDisk.write.
Proof.
  constructor; unfold MemDisk.write, MemDisk.readFileSync.
  - intros d d' p c [= <-]. cbn. now rewrite jeqb_refl.
  - intros d d' p c q [= <-] Hq. cbn.
    assert (E : jeqb p q = false) by (apply jeqb_neq; congruence).
    now rewrite E.
Qed.

Lemma second_run_writes_nothing_witness :
  exists first,
    transformFiles Sample.host MemDisk.Disk MemDisk.readFileSync MemDisk.write 8
                   SampleRun.changed (currentTargetFiles Sample.targets)
                   SampleRun.disk0 = Some first
    /\ written first <> []
    /\ transformFiles Sample.host MemDisk.Disk MemDisk.readFileSync MemDisk.write 8
                      SampleRun.changed (currentTargetFiles Sample.targets)
                      (disk first)
       = Some {| disk := disk first; written := []; thrownAt := None |}.
Proof.
  eexists. split; [reflexivity|]. split; [discriminate|].
  apply (second_run_writes_nothing Sample.host MemDisk.Disk MemDisk.readFileSync
           MemDisk.write 8 SampleRun.changed (currentTargetFiles Sample.targets)
           [js "lib"] SampleRun.disk0).
  - apply memdisk_laws.
  - now left.
  - reflexivity.
  - intros f Hf. apply posix_line_safe; try reflexivity.
    cbn in Hf. repeat (destruct Hf as [<-|Hf]; [reflexivity|]). destruct Hf.
  - intros f raw Hf. cbn in Hf.
    repeat (destruct Hf as [<-|Hf];
            [intros [= <-]; vm_compute; intuition discriminate|]).
    destruct Hf.
  - reflexivity.
  - reflexivity.
Defined.

Lemma transformFiles_writes_changed_files_only_witness :
  exists r dirs,
    transformFiles Sample.host MemDisk.Disk MemDisk.readFileSync MemDisk.write 8
                   SampleRun.changed (currentTargetFiles Sample.targets)
                   SampleRun.disk0 = Some r
    /\ getTargetFolders Sample.host 8 (currentTargetFiles Sample.targets) = Some dirs
    /\ map fst (written r) = [js "main.ts"].
Proof.
  eexists.
  destruct (transformFiles_writes_changed_files_only Sample.host MemDisk.Disk
              MemDisk.readFileSync MemDisk.write 8 SampleRun.changed
              (currentTargetFiles Sample.targets) SampleRun.disk0 _ eq_refl)
    as (dirs & Hd & _ & _).
  exists dirs. split; [reflexivity|]. split; [exact Hd | reflexivity].
Defined.

Lemma unreadable_file_aborts_run_witness :
  exists r,
    transformFiles Sample.host MemDisk.Disk
                   (fun d p => if jeqb p (js "gone.ts") then None
                               else MemDisk.readFileSync d p)
                   MemDisk.write 8
                   [js "main.ts"; js "gone.ts"; js "lib/a.ts"]
                   (currentTargetFiles Sample.targets)
                   [(js "main.ts", staleContents); (js "lib/a.ts", staleContents)]
    = Some r
    /\ thrownAt r <> None
    /\ transformFiles Sample.host MemDisk.Disk
                      (fun d p => if jeqb p (js "gone.ts") then None
                                  else MemDisk.readFileSync d p)
                      MemDisk.write 8
                      [js "main.ts"; js "gone.ts"]
                      (currentTargetFiles Sample.targets)
                      [(js "main.ts", staleContents); (js "lib/a.ts", staleContents)]
       = Some r.
Proof.
  eexists. split; [reflexivity|].
  apply (unreadable_file_aborts_run Sample.host MemDisk.Disk
           (fun d p => if jeqb p (js "gone.ts") then None
                       else MemDisk.readFileSync d p)
           MemDisk.write 8 [js "main.ts"] [js "lib/a.ts"]
           (currentTargetFiles Sample.targets) (js "gone.ts")
           [(js "main.ts", staleContents); (js "lib/a.ts", staleContents)]).
  - intro d'. reflexivity.
  - reflexivity.
Defined.

(* ================================================================== *)
(** * escapeContent and compileHTML *)
(* ================================================================== *)

Lemma removeNewlines_bounded (n : nat) :
  forall s, List.length s <= n -> ~ In LF (Html2ts.removeNewlines s).
Proof.
  induction n as [|n IH]; intros [|c s] Hlen; cbn [List.length] in Hlen;
    try lia; try (intros []).
  cbn [Html2ts.removeNewlines].
  assert (Hs : ~ In LF (Html2ts.removeNewlines s)) by (apply IH; lia).
  destruct (N.eqb_spec c CR) as [->|Hc].
  - destruct s as [|d s']; [intros [H|[]]; discriminate|].
    destruct (N.eqb d LF).
    + apply IH. cbn in Hlen. lia.
    + intros [H|H]; [discriminate | contradiction].
  - destruct (N.eqb_spec c LF) as [->|Hl]; [exact Hs|].
    intros [H|H]; [congruence | contradiction].
Qed.

Lemma escapeContent_no_LF (content : jstring) :
  ~ In LF (Html2ts.escapeContent content).
Proof.
  apply (removeNewlines_bounded (List.length (Html2ts.escapeQuotes content))).
  lia.
Qed.

(** X13.  The escaped content never holds a line feed, whatever the
    content is: every LF is removed, and the escaping of the quotes adds
    none. *)
Theorem escapeContent_has_no_line_feed (content : jstring) :
  ~ In LF (Html2ts.escapeContent content).
Proof. apply escapeContent_no_LF. Qed.

Lemma quotesEscaped_weaken (b : bool) (s : jstring) :
  Html2ts.quotesEscaped false s = true -> Html2ts.quotesEscaped b s = true.
Proof.
  destruct s as [|c s]; [reflexivity|]. cbn [Html2ts.quotesEscaped].
  destruct (N.eqb c 39); [discriminate|]. now destruct b.
Qed.

Lemma escapeQuotes_escaped (s : jstring) :
  Html2ts.quotesEscaped false (Html2ts.escapeQuotes s) = true.
Proof.
  induction s as [|c s IH]; [reflexivity|].
  cbn [Html2ts.escapeQuotes]. destruct (N.eqb c 39) eqn:E.
  - cbn. now apply quotesEscaped_weaken.
  - cbn [Html2ts.quotesEscaped]. rewrite E. cbn [andb].
    now apply quotesEscaped_weaken.
Qed.

Lemma quotesEscaped_tail (b : bool) (c : N) (s : jstring) :
  Html2ts.quotesEscaped b (c :: s) = true ->
  Html2ts.quotesEscaped (N.eqb c 92) s = true.
Proof. cbn [Html2ts.quotesEscaped]. intro H. now apply andb_true_iff in H. Qed.

Lemma removeNewlines_escaped (n : nat) :
  forall s b, List.length s <= n ->
              Html2ts.quotesEscaped b s = true ->
              Html2ts.quotesEscaped b (Html2ts.removeNewlines s) = true.
Proof.
  induction n as [|n IH]; intros [|c s] b Hlen H; cbn [List.length] in Hlen;
    try lia; try reflexivity.
  pose proof (quotesEscaped_tail b c s H) as Ht.
  assert (Hhead : (if N.eqb c 39 then b else true) = true)
    by (cbn [Html2ts.quotesEscaped] in H; now apply andb_true_iff in H).
  assert (Hkeep : Html2ts.quotesEscaped b (c :: Html2ts.removeNewlines s) = true).
  { cbn [Html2ts.quotesEscaped]. rewrite Hhead. apply IH; [lia | exact Ht]. }
  assert (Hdrop : N.eqb c 92 = false ->
                  forall s', List.length s' <= n ->
                             Html2ts.quotesEscaped false s' = true ->
                             Html2ts.quotesEscaped b (Html2ts.removeNewlines s') = true).
  { intros _ s' Hs' H'. apply IH; [exact Hs'|]. now apply quotesEscaped_weaken. }
  cbn [Html2ts.removeNewlines].
  destruct (N.eqb_spec c CR) as [->|Hc].
  - destruct s as [|d s']; [exact H|].
    destruct (N.eqb_spec d LF) as [->|Hd]; [|exact Hkeep].
    apply (Hdrop eq_refl); [cbn in Hlen; lia|].
    change (N.eqb CR 92) with false in Ht.
    apply (quotesEscaped_tail false LF s') in Ht. exact Ht.
  - destruct (N.eqb_spec c LF) as [->|Hl]; [|exact Hkeep].
    apply (Hdrop eq_refl); [lia | exact Ht].
Qed.

Lemma quotesEscaped_sound (s : jstring) :
  forall b before after,
    Html2ts.quotesEscaped b s = true ->
    s = before ++ 39%N :: after ->
    (before = [] /\ b = true) \/ exists before', before = before' ++ [92%N].
Proof.
  induction s as [|c s IH]; intros b before after H E.
  - destruct before; discriminate.
  - destruct before as [|x before].
    + injection E as -> ->. cbn in H. left.
      apply andb_true_iff in H as [H _]. auto.
    + injection E as <- E. right.
      destruct (IH _ before after (quotesEscaped_tail b c s H) E)
        as [[-> Hb]|[before' ->]].
      * apply N.eqb_eq in Hb. subst c. now exists [].
      * now exists (c :: before').
Qed.

(** X14.  In the escaped content every single quote comes right after a
    backslash. *)
Theorem escapeContent_escapes_every_quote (content before after : jstring) :
  Html2ts.escapeContent content = before ++ 39%N :: after ->
  exists before', before = before' ++ [92%N].
Proof.
  intro E.
  assert (H : Html2ts.quotesEscaped false (Html2ts.escapeContent content) = true).
  { apply (removeNewlines_escaped (List.length (Html2ts.escapeQuotes content)));
      [lia | apply escapeQuotes_escaped]. }
  destruct (quotesEscaped_sound _ false before after H E) as [[_ F]|G];
    [discriminate | exact G].
Qed.

Lemma escapeContent_escapes_every_quote_witness :
  exists before', js "it\" = before' ++ [92%N].
Proof.
  apply (escapeContent_escapes_every_quote (js "it's") (js "it\") (js "s")).
  reflexivity.
Defined.

Lemma escapeQuotes_same (s : jstring) :
  ~ In 39%N s -> Html2ts.escapeQuotes s = s.
Proof.
  induction s as [|c s IH]; intro H; [reflexivity|].
  cbn [Html2ts.escapeQuotes].
  destruct (N.eqb_spec c 39) as [->|_]; [exfalso; apply H; now left|].
  f_equal. apply IH. intro Hs. apply H. now right.
Qed.

Lemma removeNewlines_same (s : jstring) :
  ~ In LF s -> Html2ts.removeNewlines s = s.
Proof.
  induction s as [|c s IH]; intro H; [reflexivity|].
  assert (Hs : Html2ts.removeNewlines s = s)
    by (apply IH; intro Hs; apply H; now right).
  cbn [Html2ts.removeNewlines].
  destruct (N.eqb c CR).
  - destruct s as [|d s']; [reflexivity|].
    destruct (N.eqb_spec d LF) as [->|_];
      [exfalso; apply H; right; now left | now rewrite Hs].
  - destruct (N.eqb_spec c LF) as [->|_];
      [exfalso; apply H; now left | now rewrite Hs].
Qed.

Lemma escapeQuotes_keeps_line_feeds (s : jstring) :
  In LF (Html2ts.escapeQuotes s) <-> In LF s.
Proof.
  induction s as [|c s IH]; [reflexivity|].
  cbn [Html2ts.escapeQuotes].
  destruct (N.eqb_spec c 39) as [->|_]; cbn [In]; rewrite IH.
  - split; [intros [H|[H|H]]; try discriminate; auto
           | intros [H|H]; [discriminate | auto]].
  - reflexivity.
Qed.

Lemma escapeQuotes_length (s : jstring) :
  List.length (Html2ts.escapeQuotes s) = List.length s -> ~ In 39%N s.
Proof.
  assert (Hge : forall t, List.length t <= List.length (Html2ts.escapeQuotes t)).
  { induction t as [|c t IH]; [reflexivity|].
    cbn [Html2ts.escapeQuotes]. destruct (N.eqb c 39); cbn [List.length]; lia. }
  induction s as [|c s IH]; [intros _ []|].
  cbn [Html2ts.escapeQuotes].
  destruct (N.eqb_spec c 39) as [->|Hc]; cbn [List.length]; intro H.
  - pose proof (Hge s). lia.
  - intros [E|Hs]; [congruence|]. apply IH; [lia | exact Hs].
Qed.

(** X15.  Escaping leaves a content as it is exactly when the content
    holds neither a single quote nor a line feed. *)
Theorem escapeContent_fixes_plain_content (content : jstring) :
  Html2ts.escapeContent content = content
  <-> ~ In 39%N content /\ ~ In LF content.
Proof.
  unfold Html2ts.escapeContent. split.
  - intro E.
    assert (Hlf : ~ In LF content).
    { rewrite <- E. apply (escapeContent_no_LF content). }
    split; [|exact Hlf].
    rewrite removeNewlines_same in E
      by (now rewrite escapeQuotes_keeps_line_feeds).
    apply escapeQuotes_length. now rewrite E.
  - intros [Hq Hlf]. rewrite (escapeQuotes_same _ Hq).
    now apply removeNewlines_same.
Qed.

Lemma replaceFirstDot_no_line_feed (by_ s : jstring) :
  ~ In LF by_ -> ~ In LF s -> ~ In LF (Html2ts.replaceFirstDot by_ s).
Proof.
  intros Hb. induction s as [|c s IH]; intro Hs; [exact Hs|].
  cbn [Html2ts.replaceFirstDot]. destruct (N.eqb c 46).
  - intro H. apply in_app_or in H as [H|H]; [contradiction|].
    apply Hs. now right.
  - intros [H|H]; [apply Hs; now left|].
    apply IH; [|exact H]. intro H'. apply Hs. now right.
Qed.

Lemma stripBOM_no_line_feed (s : jstring) :
  ~ In LF s -> ~ In LF (Html2ts.stripBOM s).
Proof.
  destruct s as [|c s]; [auto|]. cbn [Html2ts.stripBOM].
  destruct (N.eqb 65279 c); [|auto]. intros H Hs. apply H. now right.
Qed.

Lemma fileContentOf_no_line_feed (h : Host) (raw filename : jstring)
      (options : Html2ts.IHtml2TSOptions) :
  (forall ext name, ~ In LF (Html2ts.moduleFunction options ext name)) ->
  (forall ext name, ~ In LF (Html2ts.varFunction options ext name)) ->
  ~ In LF (Html2ts.fileContentOf h raw filename options).
Proof.
  intros Hm Hv. unfold Html2ts.fileContentOf, Html2ts.htmlTemplate.
  intro H.
  repeat (apply in_app_or in H as [H|H]);
    try (vm_compute in H; intuition discriminate).
  - exact (Hm _ _ H).
  - revert H. apply replaceFirstDot_no_line_feed; [|apply Hv].
    vm_compute. intuition discriminate.
  - revert H. apply stripBOM_no_line_feed, escapeContent_no_LF.
Qed.

(** X16.  When [compileHTML] returns, it has written one file, named
    after the HTML file with [.ts] appended, and its text is one line (no
    line feed) whenever the module and variable functions of the options
    return names without line feed. *)
Theorem compileHTML_writes_one_line (h : Host) (Disk : Type)
        (readFileSync : Disk -> jstring -> option jstring)
        (writeFileSync : Disk -> jstring -> jstring -> option Disk)
        (filename outputfile : jstring) (options : Html2ts.IHtml2TSOptions)
        (d d' : Disk) :
  (forall ext name, ~ In LF (Html2ts.moduleFunction options ext name)) ->
  (forall ext name, ~ In LF (Html2ts.varFunction options ext name)) ->
  Html2ts.compileHTML h Disk readFileSync writeFileSync filename options d
  = Some (outputfile, d') ->
  outputfile = filename ++ js ".ts"
  /\ exists text,
      writeFileSync d outputfile text = Some d' /\ ~ In LF text.
Proof.
  intros Hm Hv. unfold Html2ts.compileHTML.
  destruct (readFileSync d filename) as [raw|]; [|discriminate].
  destruct (writeFileSync d _ _) as [d2|] eqn:W; [|discriminate].
  intros [= <- <-]. split; [reflexivity|].
  exists (Html2ts.fileContentOf h raw filename options).
  split; [exact W | now apply fileContentOf_no_line_feed].
Qed.

Lemma compileHTML_writes_one_line_witness :
  js "views/home.html.ts" = js "views/home.html" ++ js ".ts"
  /\ exists text,
      MemDisk.write [(js "views/home.html", js "<p>it's" ++ [CR; LF] ++ js "here</p>")]
                    (js "views/home.html.ts") text
      = Some [(js "views/home.html.ts",
               js "module views { export var home_html =  '<p>it\'shere</p>' } ");
              (js "views/home.html", js "<p>it's" ++ [CR; LF] ++ js "here</p>")]
      /\ ~ In LF text.
Proof.
  apply (compileHTML_writes_one_line Sample.host MemDisk.Disk
           MemDisk.readFileSync MemDisk.write (js "views/home.html")
           (js "views/home.html.ts")
           {| Html2ts.moduleFunction := fun _ _ => js "views";
              Html2ts.varFunction := fun _ _ => js "home.html" |}).
  - intros ext name H. vm_compute in H. intuition discriminate.
  - intros ext name H. vm_compute in H. intuition discriminate.
  - reflexivity.
Defined.
